(** * backup_tui: a shallow embedding of [main.go]

    The program is a Bubble Tea dashboard over two systemd units.  This file
    embeds its helpers ([firstLine], [trimLines]), the command closure built
    by [asyncRun], the [Update] and [View] methods of [model] and [main], and
    proves the properties stated about them.

    Go strings are byte sequences: they are embedded as [string] (lists of
    8-bit [ascii]).  Go [int] is a 64-bit signed integer, embedded as [Z]
    with its wrap-around written out. *)

From Stdlib Require Import String Ascii List ZArith Lia Bool.
Import ListNotations.
Open Scope string_scope.
Open Scope Z_scope.

(** ** Bytes and strings *)

Definition newline : ascii := "010"%char.
Definition nl : string := String newline EmptyString.

(** [len(s)] of a Go string and [len(xs)] of a slice, as Go [int]s. *)
Definition slen (s : string) : Z := Z.of_nat (String.length s).
Definition llen {A} (xs : list A) : Z := Z.of_nat (List.length xs).

(** Two's complement wrap-around of Go's [int] (64 bits). *)
Definition int_min : Z := - 2 ^ 63.
Definition int_max : Z := 2 ^ 63 - 1.
Definition wrap_int (z : Z) : Z := (z + 2 ^ 63) mod 2 ^ 64 - 2 ^ 63.
Definition is_int (z : Z) : Prop := int_min <= z <= int_max.

(** [strings.Split(s, "\n")]: the segments between successive newline
    bytes; the result always has [Count(s, "\n") + 1] elements. *)
Fixpoint Split (s : string) : list string :=
  match s with
  | EmptyString => [EmptyString]
  | String c rest =>
      if Ascii.eqb c newline then EmptyString :: Split rest
      else match Split rest with
           | seg :: segs => String c seg :: segs
           | [] => [String c EmptyString]
           end
  end.

(** [strings.Join(elems, sep)]. *)
Fixpoint Join (elems : list string) (sep : string) : string :=
  match elems with
  | [] => EmptyString
  | [e] => e
  | e :: rest => e ++ sep ++ Join rest sep
  end.

(** [strings.IndexByte(s, c)]: index of the first [c], or [-1]. *)
Fixpoint IndexByte (s : string) (c : ascii) : Z :=
  match s with
  | EmptyString => -1
  | String b rest =>
      if Ascii.eqb b c then 0
      else let i := IndexByte rest c in
           if i <? 0 then -1 else i + 1
  end.

(** The slice expression [s[:i]] on a string, for [0 <= i <= len(s)]. *)
Fixpoint take (n : nat) (s : string) : string :=
  match n, s with
  | O, _ => EmptyString
  | S _, EmptyString => EmptyString
  | S k, String c rest => String c (take k rest)
  end.

(** [strings.HasSuffix(s, suffix)]. *)
Definition HasSuffix (s suffix : string) : bool :=
  let n := String.length s in
  let k := String.length suffix in
  (k <=? n)%nat && String.eqb (substring (n - k)%nat k s) suffix.

(** ** [firstLine] and [trimLines] (main.go, lines 195-207) *)

Definition firstLine (s : string) : string :=
  let i := IndexByte s newline in
  if 0 <=? i then take (Z.to_nat i) s else s.

(** [trimLines] either returns a string or panics in the slice expression
    [lines[len(lines)-n:]] ("slice bounds out of range"); a panic is [None]. *)
Definition trimLines (s : string) (n : Z) : option string :=
  let lines := Split s in
  if llen lines >? n then
    let low := wrap_int (llen lines - n) in
    if (0 <=? low) && (low <=? llen lines)
    then Some (Join (skipn (Z.to_nat low) lines) nl)
    else None
  else Some (Join lines nl).

(** The last [n] elements of a list, all of them when it has fewer. *)
Definition lastn {A} (n : nat) (xs : list A) : list A :=
  skipn (List.length xs - n)%nat xs.

(** A line is a string without a newline byte. *)
Fixpoint no_newline (s : string) : bool :=
  match s with
  | EmptyString => true
  | String c rest => negb (Ascii.eqb c newline) && no_newline rest
  end.

(** [strings.Count(s, "\n")]: the number of newline bytes. *)
Fixpoint CountNewlines (s : string) : nat :=
  match s with
  | EmptyString => 0%nat
  | String c rest =>
      if Ascii.eqb c newline then S (CountNewlines rest) else CountNewlines rest
  end.

(** ** [strings.TrimSpace]

    Leading and trailing white space "as defined by Unicode" is removed.  The
    string is UTF-8: the white-space runes of [unicode.IsSpace] are the six
    ASCII ones, U+0085 and U+00A0 (two bytes each) and U+1680, U+2000-U+200A,
    U+2028, U+2029, U+202F, U+205F, U+3000 (three bytes each).  A byte
    sequence that is not the encoding of one of them decodes to another rune
    (or to the error rune) and stops the trimming. *)

Definition bytes_of (s : string) : list N := map N_of_ascii (list_ascii_of_string s).
Definition string_of (bs : list N) : string := string_of_list_ascii (map ascii_of_N bs).

Definition asciiSpace (b : N) : bool :=
  existsb (N.eqb b) [9; 10; 11; 12; 13; 32]%N.

(** Width in bytes of the white-space rune encoded at the front of [bs];
    [0] when the rune there is no white space. *)
Definition space_prefix (bs : list N) : nat :=
  match bs with
  | b0 :: rest =>
      if asciiSpace b0 then 1%nat
      else match rest with
           | b1 :: rest' =>
               if N.eqb b0 0xC2 && (N.eqb b1 0x85 || N.eqb b1 0xA0) then 2%nat
               else match rest' with
                    | b2 :: _ =>
                        if N.eqb b0 0xE1 && N.eqb b1 0x9A && N.eqb b2 0x80 then 3%nat
                        else if N.eqb b0 0xE2 && N.eqb b1 0x80 &&
                                ((N.leb 0x80 b2 && N.leb b2 0x8A) ||
                                 existsb (N.eqb b2) [0xA8; 0xA9; 0xAF]%N) then 3%nat
                        else if N.eqb b0 0xE2 && N.eqb b1 0x81 && N.eqb b2 0x9F then 3%nat
                        else if N.eqb b0 0xE3 && N.eqb b1 0x80 && N.eqb b2 0x80 then 3%nat
                        else 0%nat
                    | [] => 0%nat
                    end
           | [] => 0%nat
           end
  | [] => 0%nat
  end.

(** The same for the rune that ends a string, on the reversed bytes
    (last byte first), as [utf8.DecodeLastRuneInString] finds it. *)
Definition space_suffix (rbs : list N) : nat :=
  if (space_prefix (rev (firstn 1 rbs)) =? 1)%nat then 1%nat
  else if (space_prefix (rev (firstn 2 rbs)) =? 2)%nat then 2%nat
  else if (space_prefix (rev (firstn 3 rbs)) =? 3)%nat then 3%nat
  else 0%nat.

Fixpoint trim_front (width : list N -> nat) (fuel : nat) (bs : list N) : list N :=
  match fuel with
  | O => bs
  | S fuel' =>
      match width bs with
      | O => bs
      | w => trim_front width fuel' (skipn w bs)
      end
  end.

Definition TrimSpace (s : string) : string :=
  let bs := bytes_of s in
  let left := trim_front space_prefix (List.length bs) bs in
  let right := trim_front space_suffix (List.length left) (rev left) in
  string_of (rev right).

(** ** Messages, commands and the external toolkit *)

Definition serviceName : string := "nightly-onedrive-backup.service".
Definition timerName : string := "nightly-onedrive-backup.timer".

Record unitItem : Type := { title : string; desc : string }.

(** [tea.Msg] is an empty interface; [Update] switches on its dynamic type.
    [errMsg] carries an [error]: an interface value that is nil ([None]) or
    has an [Error()] text.  [OtherMsg] is any message type the switch does
    not name (window size, spinner ticks). *)
Inductive Msg (X : Type) : Type :=
| KeyMsg (key : string)
| OutputMsg (tag out : string)
| ErrMsg (err : option string)
| TickMsg
| OtherMsg (x : X).
Arguments KeyMsg {X} key.
Arguments OutputMsg {X} tag out.
Arguments ErrMsg {X} err.
Arguments TickMsg {X}.
Arguments OtherMsg {X} x.

(** [tea.Cmd] is a closure producing a message; commands are kept as the
    description of the closure.  [CmdRun ctx tag unit] is the second closure
    of [asyncRun], which captured [ctx], [tag] and [unit]. *)
#[warnings="-register-all"]
Inductive Cmd (C : Type) : Type :=
| CmdQuit
| CmdFirstTick
| CmdTickAfter (seconds : Z)
| CmdRun (ctx : nat) (tag unit : string)
| CmdExt (c : C)
| CmdBatch (cs : list (Cmd C)).
Arguments CmdQuit {C}.
Arguments CmdFirstTick {C}.
Arguments CmdTickAfter {C} seconds.
Arguments CmdRun {C} ctx tag unit.
Arguments CmdExt {C} c.
Arguments CmdBatch {C} cs.

(** The Bubble Tea widgets and lipgloss are libraries outside the
    repository: the program is embedded over their interface. *)
Class Toolkit : Type := {
  ListModel : Type;
  SpinModel : Type;
  ExtMsg : Type;
  ExtCmd : Type;
  list_New : list unitItem -> string -> ListModel;
  list_Update : ListModel -> Msg ExtMsg -> ListModel * ExtCmd;
  list_SelectedItem : ListModel -> option unitItem;
  list_View : ListModel -> string;
  spin_New : SpinModel;
  spin_Update : SpinModel -> Msg ExtMsg -> SpinModel * ExtCmd;
  spin_View : SpinModel -> string;
  render_status : string -> string;
  render_faint : string -> string
}.

(** ** Contexts and cancellation

    [context.WithCancel] allocates a fresh context, named by a number; its
    [cancel] function is named by the same number.  The world records which
    cancel functions were invoked, in order. *)
Record World : Type := { next_ctx : nat; cancel_calls : list nat }.

Inductive Outcome (A : Type) : Type :=
| Returns (a : A) (w : World)
| Panics (reason : string).
Arguments Returns {A} a w.
Arguments Panics {A} reason.

Definition Eff (A : Type) : Type := World -> Outcome A.

Definition ret {A} (a : A) : Eff A := fun w => Returns a w.
Definition bind {A B} (c : Eff A) (k : A -> Eff B) : Eff B :=
  fun w => match c w with
           | Returns a w' => k a w'
           | Panics r => Panics r
           end.
Definition panic {A} (reason : string) : Eff A := fun _ => Panics reason.

Declare Scope eff_scope.
Delimit Scope eff_scope with eff.
Notation "x <- c ;; k" := (bind c (fun x => k))
  (at level 61, c at next level, right associativity) : eff_scope.
Notation "c ;; k" := (bind c (fun _ => k))
  (at level 61, right associativity) : eff_scope.
Open Scope eff_scope.

Definition WithCancel : Eff nat :=
  fun w => Returns (next_ctx w)
             {| next_ctx := S (next_ctx w); cancel_calls := cancel_calls w |}.

Definition invoke (cancel : nat) : Eff unit :=
  fun w => Returns tt
             {| next_ctx := next_ctx w; cancel_calls := (cancel_calls w ++ [cancel])%list |}.

(** The operating system as the program sees it. *)
Record Host : Type := {
  (** [exec.LookPath name] succeeded *)
  lookPath : string -> bool;
  (** [exec.Command(argv...).Output()]: standard output (the error is dropped) *)
  cmd_Output : list string -> string;
  (** [exec.CommandContext(ctx, argv...).Run()] with both streams in one
      buffer: the error, if any, and the buffer's content *)
  cmd_Run : nat -> list string -> option string * string;
  (** [p.Start()]: the error the event loop ends with, if any *)
  tea_Start : option string
}.

(** ** The application (main.go, lines 37-193) *)

Section App.
Context {TK : Toolkit}.

Record model : Type := {
  (** the field [list] of the source (renamed: [list] is a type here) *)
  mlist : ListModel;
  spin : SpinModel;
  status : string;
  lastOutput : string;
  loading : bool;
  err : option string;
  cancelFunc : option nat
}.

Definition set_list (m : model) (l : ListModel) : model :=
  {| mlist := l; spin := spin m; status := status m; lastOutput := lastOutput m;
     loading := loading m; err := err m; cancelFunc := cancelFunc m |}.
Definition set_spin (m : model) (sp : SpinModel) : model :=
  {| mlist := mlist m; spin := sp; status := status m; lastOutput := lastOutput m;
     loading := loading m; err := err m; cancelFunc := cancelFunc m |}.
Definition set_status (m : model) (st : string) : model :=
  {| mlist := mlist m; spin := spin m; status := st; lastOutput := lastOutput m;
     loading := loading m; err := err m; cancelFunc := cancelFunc m |}.
Definition set_lastOutput (m : model) (o : string) : model :=
  {| mlist := mlist m; spin := spin m; status := status m; lastOutput := o;
     loading := loading m; err := err m; cancelFunc := cancelFunc m |}.
Definition set_loading (m : model) (b : bool) : model :=
  {| mlist := mlist m; spin := spin m; status := status m; lastOutput := lastOutput m;
     loading := b; err := err m; cancelFunc := cancelFunc m |}.
Definition set_err (m : model) (e : option string) : model :=
  {| mlist := mlist m; spin := spin m; status := status m; lastOutput := lastOutput m;
     loading := loading m; err := e; cancelFunc := cancelFunc m |}.
Definition set_cancelFunc (m : model) (c : option nat) : model :=
  {| mlist := mlist m; spin := spin m; status := status m; lastOutput := lastOutput m;
     loading := loading m; err := err m; cancelFunc := c |}.

Definition listTitle : string := "OneDrive Backup – systemd units".

Definition items : list unitItem :=
  [ {| title := timerName; desc := "Enable/Disable, View status, Run Now" |};
    {| title := serviceName; desc := "Run Now, View logs" |} ].

Definition newModel : model :=
  {| mlist := list_New items listTitle; spin := spin_New; status := "Ready";
     lastOutput := ""; loading := false; err := None; cancelFunc := None |}.

(** The [switch tag] of the command closure: the command line to run, or
    [None] in the [default] case.  The [toggle] case first runs the probe. *)
Definition commandLine (h : Host) (tag unit : string) : option (list string) :=
  if String.eqb tag "status" then
    Some ["systemctl"; "status"; "--no-pager"; unit]
  else if String.eqb tag "start" then
    Some ["systemctl"; "start"; unit]
  else if String.eqb tag "toggle" then
    let stateOut := cmd_Output h ["systemctl"; "is-enabled"; unit] in
    if String.eqb (TrimSpace stateOut) "enabled" then
      Some ["systemctl"; "disable"; "--now"; unit]
    else
      Some ["systemctl"; "enable"; "--now"; unit]
  else if String.eqb tag "enable" then
    Some ["systemctl"; "enable"; "--now"; unit]
  else if String.eqb tag "logs" then
    Some ["journalctl"; "-u"; unit; "-n"; "50"; "--no-pager"]
  else None.

(** The command closure of [asyncRun] (lines 162-192), run on a host. *)
Definition runCommand (h : Host) (ctx : nat) (tag unit : string) : Msg ExtMsg :=
  match commandLine h tag unit with
  | None => ErrMsg (Some "unknown action")
  | Some argv =>
      match cmd_Run h ctx argv with
      | (Some e, _) => ErrMsg (Some e)
      | (None, out) => OutputMsg tag out
      end
  end.

(** [asyncRun] has a pointer receiver: it returns the command and leaves the
    receiver updated, so the updated receiver is returned with it. *)
Definition asyncRun (m : model) (tag unit : string) : Eff (model * Cmd ExtCmd) :=
  cancel <- WithCancel ;;
  let m := set_cancelFunc m (Some cancel) in
  let m := set_loading m true in
  let m := set_status m (tag ++ " " ++ unit) in
  ret (m, CmdBatch [CmdFirstTick; CmdRun cancel tag unit]).

(** [m.list.SelectedItem().(unitItem)]: the type assertion panics on the
    nil interface that [SelectedItem] returns when no item is visible. *)
Definition selectedUnit (m : model) : Eff unitItem :=
  match list_SelectedItem (mlist m) with
  | Some it => ret it
  | None => panic "interface conversion: list.Item is nil, not main.unitItem"
  end.

(** [if m.cancelFunc != nil { m.cancelFunc() }] *)
Definition cancelIfSet (m : model) : Eff unit :=
  match cancelFunc m with
  | Some c => invoke c
  | None => ret tt
  end.

(** Lines 126-136, reached from every case that does not return early. *)
Definition updateTail (m : model) (msg : Msg ExtMsg) (cmds : list (Cmd ExtCmd))
  : model * Cmd ExtCmd :=
  let '(m, cmds) :=
    if loading m then
      let '(sp, cmd) := spin_Update (spin m) msg in
      (set_spin m sp, (cmds ++ [CmdExt cmd])%list)
    else (m, cmds) in
  let '(l, cmd) := list_Update (mlist m) msg in
  (set_list m l, CmdBatch (cmds ++ [CmdExt cmd])%list).

(** [Update].  In [return m, m.asyncRun(...)] the call runs before the
    operand [m] is read (the order the gc compiler gives the two), so the
    returned model carries the fields [asyncRun] set. *)
Definition Update (m : model) (msg : Msg ExtMsg) : Eff (model * Cmd ExtCmd) :=
  match msg with
  | KeyMsg k =>
      if String.eqb k "q" || String.eqb k "ctrl+c" then
        cancelIfSet m ;; ret (m, CmdQuit)
      else if String.eqb k "enter" then
        selected <- selectedUnit m ;;
        asyncRun m "status" (title selected)
      else if String.eqb k "r" then
        selected <- selectedUnit m ;;
        asyncRun m "start" (title selected)
      else if String.eqb k " " then
        selected <- selectedUnit m ;;
        let action :=
          if HasSuffix (title selected) ".timer" then "toggle" else "enable" in
        asyncRun m action (title selected)
      else if String.eqb k "l" then
        selected <- selectedUnit m ;;
        asyncRun m "logs" (title selected)
      else ret (updateTail m msg [])
  | OutputMsg tag out =>
      let m := set_loading m false in
      let m := set_status m ("[" ++ tag ++ "] " ++ firstLine out) in
      let m := set_lastOutput m out in
      cancelIfSet m ;;
      ret (updateTail m msg [])
  | ErrMsg e =>
      let m := set_loading m false in
      let m := set_err m e in
      match e with
      | Some text =>
          let m := set_status m ("Error: " ++ text) in
          cancelIfSet m ;;
          ret (updateTail m msg [])
      | None =>
          (* [msg.err.Error()] on the nil interface *)
          panic "runtime error: invalid memory address or nil pointer dereference"
      end
  | TickMsg =>
      let '(sp, _) := spin_Update (spin m) msg in
      let m := set_spin m sp in
      ret (updateTail m msg [CmdTickAfter 1])
  | OtherMsg _ => ret (updateTail m msg [])
  end.

Definition helpLine : string :=
  nl ++ nl ++
  "[↑/↓] navigate • [space] enable/disable • [r] run • [enter] status • [l] logs • [q] quit"
  ++ nl.

(** The three blocks [View] writes after the list. *)
Definition statusBlock (m : model) : string :=
  if loading m then nl ++ (spin_View (spin m) ++ " " ++ status m)
  else nl ++ render_status (status m).

Definition outputBlock (m : model) : option string :=
  if String.eqb (lastOutput m) "" then Some ""
  else match trimLines (lastOutput m) 20 with
       | Some shown => Some (nl ++ nl ++ render_faint shown)
       | None => None
       end.

(** [View]; [None] is a panic (of [trimLines]). *)
Definition View (m : model) : option string :=
  match outputBlock m with
  | Some ob => Some (list_View (mlist m) ++ statusBlock m ++ ob ++ helpLine)
  | None => None
  end.

(** The event loop feeds the messages to [Update] one after the other. *)
Fixpoint run (m : model) (msgs : list (Msg ExtMsg)) : Eff model :=
  match msgs with
  | [] => ret m
  | msg :: rest => r <- Update m msg ;; run (fst r) rest
  end.

(** ** [main] (lines 62-72): what it does, in order *)
Inductive Action : Type :=
| WriteStderr (s : string)
| WriteStdout (s : string)
| StartProgram (m : model)
| Exit (code : Z).

Definition main (h : Host) : list Action :=
  if lookPath h "systemctl" then
    StartProgram newModel ::
    match tea_Start h with
    | Some e => [WriteStdout ("Error: " ++ e ++ nl); Exit 1]
    | None => [Exit 0]
    end
  else [WriteStderr ("systemctl not found" ++ nl); Exit 1].

End App.

Arguments model TK : clear implicits.
Arguments Action TK : clear implicits.

(** ** Vocabulary of the statements *)

(** The keys [Update] handles itself (and returns early on); every other
    key falls through to the list widget, which owns navigation and
    filtering. *)
Definition actionKeys : list string := ["q"; "ctrl+c"; "enter"; "r"; " "; "l"].
Definition isActionKey (k : string) : bool := existsb (String.eqb k) actionKeys.

(** The tag with which a key starts an operation on the selected item. *)
Definition dispatchTag (k : string) (it : unitItem) : option string :=
  if String.eqb k "enter" then Some "status"
  else if String.eqb k "r" then Some "start"
  else if String.eqb k " " then
    Some (if HasSuffix (title it) ".timer" then "toggle" else "enable")
  else if String.eqb k "l" then Some "logs"
  else None.

(** A command-result message: [outputMsg], or [errMsg] with the error of
    the command.  (An [errMsg] with a nil error is never built by the command
    closure, and [Update] panics on it before it is done with it.) *)
Definition isResult {X} (msg : Msg X) : bool :=
  match msg with
  | OutputMsg _ _ | ErrMsg (Some _) => true
  | _ => false
  end.

(** The command lines of section 6 of the specification. *)
Definition probeLine (u : string) : list string := ["systemctl"; "is-enabled"; u].
Definition disablePath (u : string) : list string := ["systemctl"; "disable"; "--now"; u].
Definition enablePath (u : string) : list string := ["systemctl"; "enable"; "--now"; u].
Definition startPath (u : string) : list string := ["systemctl"; "start"; u].
Definition logsPath (u : string) : list string :=
  ["journalctl"; "-u"; u; "-n"; "50"; "--no-pager"].

(** The state in which two operations were started one after the other:
    the second one's context is the stored one. *)
Definition afterTwo {TK : Toolkit} (m : model TK) (w : World) (tagB unit : string) : model TK :=
  {| mlist := mlist m; spin := spin m; status := tagB ++ " " ++ unit;
     lastOutput := lastOutput m; loading := true; err := err m;
     cancelFunc := Some (S (next_ctx w)) |}.

(** What [main]'s trace says. *)
Definition started {TK : Toolkit} (t : list (Action TK)) : bool :=
  existsb (fun a => match a with StartProgram _ => true | _ => false end) t.
Definition wroteStderr {TK : Toolkit} (t : list (Action TK)) : list string :=
  flat_map (fun a => match a with WriteStderr s => [s] | _ => [] end) t.
Definition exitCode {TK : Toolkit} (t : list (Action TK)) : option Z :=
  match last t (Exit 0) with
  | Exit c => Some c
  | _ => None
  end.

(** ** A plain toolkit and host, to run the program on concrete inputs

    A cursor over the items moved by the arrow keys, a frame counter for the
    spinner, no styling; a host on which every command succeeds and prints
    its own command line. *)
Module Plain.

Definition timerItem : unitItem :=
  {| title := timerName; desc := "Enable/Disable, View status, Run Now" |}.
Definition serviceItem : unitItem :=
  {| title := serviceName; desc := "Run Now, View logs" |}.

(** [numbered n]: the [n] one-letter lines "A", "B", ... *)
Fixpoint numbered (n : nat) : list string :=
  match n with
  | O => []
  | S k => (numbered k ++ [String (ascii_of_nat (64 + n)) ""])%list
  end.


Record cursorList : Type := { shown : list unitItem; cursor : nat }.

Definition moveCursor (l : cursorList) (msg : Msg unit) : cursorList * unit :=
  match msg with
  | KeyMsg k =>
      if String.eqb k "down" then
        ({| shown := shown l;
            cursor := Nat.min (S (cursor l)) (Nat.pred (List.length (shown l))) |}, tt)
      else if String.eqb k "up" then
        ({| shown := shown l; cursor := Nat.pred (cursor l) |}, tt)
      else (l, tt)
  | _ => (l, tt)
  end.

Definition toolkit : Toolkit := {|
  ListModel := cursorList;
  SpinModel := nat;
  ExtMsg := unit;
  ExtCmd := unit;
  list_New := fun its _ => {| shown := its; cursor := 0 |};
  list_Update := moveCursor;
  list_SelectedItem := fun l => nth_error (shown l) (cursor l);
  list_View := fun l => Join (map title (shown l)) nl;
  spin_New := 0%nat;
  spin_Update := fun sp _ => (S sp, tt);
  spin_View := fun _ => "*";
  render_status := fun s => s;
  render_faint := fun s => s
|}.

Definition host (probe : string) : Host := {|
  lookPath := fun _ => true;
  cmd_Output := fun _ => probe;
  cmd_Run := fun _ argv => (None, Join argv " " ++ nl ++ "done");
  tea_Start := None
|}.

Definition bareHost : Host := {|
  lookPath := fun _ => false;
  cmd_Output := fun _ => "";
  cmd_Run := fun _ _ => (Some "executable file not found in $PATH", "");
  tea_Start := None
|}.

(** A host whose journal has the 24 lines "A" to "X", each ended by a
    newline, and on which nothing else can be run. *)
Definition logHost : Host := {|
  lookPath := fun _ => true;
  cmd_Output := fun _ => "";
  cmd_Run := fun _ argv =>
    if String.eqb (hd "" argv) "journalctl"
    then (None, Join (numbered 24) nl ++ nl)
    else (Some "exit status 1", "");
  tea_Start := None
|}.

Definition world0 : World := {| next_ctx := 0; cancel_calls := [] |}.

(** The initial model, and the one after one press of the down key:
    the timer, then the service, is selected. *)
Definition onTimer : model toolkit := newModel (TK := toolkit).
Definition onService : model toolkit :=
  fst (updateTail (TK := toolkit) onTimer (KeyMsg "down") []).

(** A state whose list shows no item (as after a filter that matches
    nothing), and a loading state with an earlier output and error. *)
Definition noSelection : model toolkit :=
  set_list onTimer {| shown := []; cursor := 0 |}.
Definition busy : model toolkit :=
  {| mlist := mlist onTimer; spin := 3%nat; status := "start " ++ timerName;
     lastOutput := "old" ++ nl ++ "output"; loading := true;
     err := Some "exit status 1"; cancelFunc := Some 4%nat |}.
Definition world5 : World := {| next_ctx := 5; cancel_calls := [2%nat] |}.

End Plain.

(** ** The remaining methods (main.go, lines 26-28 and 76) *)

(** The [list.Item] methods of [unitItem]. *)
Definition Title (i : unitItem) : string := title i.
Definition Description (i : unitItem) : string := desc i.
Definition FilterValue (i : unitItem) : string := title i.

(** [Init] returns the nil command. *)
Definition Init {TK : Toolkit} (m : model TK) : option (Cmd ExtCmd) := None.

(** The keys that start an operation, and the tags the command closure
    has a case for. *)
Definition operationKeys : list string := ["enter"; "r"; " "; "l"].
Definition knownTags : list string := ["status"; "start"; "toggle"; "enable"; "logs"].
Definition isKnownTag (tag : string) : bool := existsb (String.eqb tag) knownTags.

(** Every context the state or the world mentions was handed out by
    [WithCancel]: the stored cancel function and the invoked ones are below
    the next free context. *)
Definition allocated {TK : Toolkit} (m : model TK) (w : World) : bool :=
  match cancelFunc m with
  | Some c => (c <? next_ctx w)%nat
  | None => true
  end && forallb (fun c => (c <? next_ctx w)%nat) (cancel_calls w).

(** The operations a command starts: context, tag and unit of every command
    closure in it. *)
Fixpoint runsOf {C : Type} (c : Cmd C) : list (nat * string * string) :=
  match c with
  | CmdRun ctx tag unit => [(ctx, tag, unit)]
  | CmdBatch cs => flat_map runsOf cs
  | _ => []
  end.

(** The cancel function [Update] invokes on a result or on quit. *)
Definition storedCancel {TK : Toolkit} (m : model TK) : list nat :=
  match cancelFunc m with
  | Some f => [f]
  | None => []
  end.

(** An [errMsg] whose error is nil. *)
Definition isNilError {X} (msg : Msg X) : bool :=
  match msg with
  | ErrMsg None => true
  | _ => false
  end.

(** Key presses and successful results among the messages. *)
Definition isKey {X} (msg : Msg X) : bool :=
  match msg with
  | KeyMsg _ => true
  | _ => false
  end.
Definition isOutput {X} (msg : Msg X) : bool :=
  match msg with
  | OutputMsg _ _ => true
  | _ => false
  end.

(** The lines of a text as a reader counts them: every newline ends a line,
    and what follows the last newline is a line of its own unless it is
    empty.  (The segments of [Split], without the empty one that a final
    newline, or an empty text, leaves at the end.) *)
Definition textLines (s : string) : list string :=
  let segs := Split s in
  if String.eqb (last segs "") "" then removelast segs else segs.

(** The messages the program's own closures in a command produce when the
    runtime runs them on a host, in the order of the batch.  (The closures
    of the libraries, that is quit and the commands of list and spinner, are
    the runtime's own matter.) *)
Fixpoint performed {TK : Toolkit} (h : Host) (c : Cmd ExtCmd) : list (Msg ExtMsg) :=
  match c with
  | CmdFirstTick => [TickMsg]
  | CmdTickAfter _ => [TickMsg]
  | CmdRun ctx tag unit => [runCommand h ctx tag unit]
  | CmdBatch cs => flat_map (performed h) cs
  | CmdQuit | CmdExt _ => []
  end.

(** [shown] is the window of the last [n] segments of [s], read off the
    text: a suffix of [s] with at most [n - 1] newlines which, when it is not
    all of [s], has exactly [n - 1] of them and starts right after a
    newline. *)
Definition lastWindow (n : nat) (s shown : string) : Prop :=
  exists lead,
    s = lead ++ shown /\
    (CountNewlines shown <= n - 1)%nat /\
    (lead = "" \/
     (CountNewlines shown = (n - 1)%nat /\ exists before, lead = before ++ nl)).

(** * Properties *)

(** ** Lines: [Split] and [Join] *)

Lemma Split_nonempty (s : string) : Split s <> [].
Proof.
  destruct s as [|c rest]; simpl; [discriminate|].
  destruct (Ascii.eqb c newline); [discriminate|].
  destruct (Split rest); discriminate.
Qed.

Lemma Split_length_pos (s : string) : (1 <= List.length (Split s))%nat.
Proof.
  pose proof (Split_nonempty s) as H.
  destruct (Split s); [congruence | simpl; lia].
Qed.

Lemma Split_length_le (s : string) :
  (List.length (Split s) <= S (String.length s))%nat.
Proof.
  induction s as [|c rest IH]; simpl; [lia|].
  destruct (Ascii.eqb c newline); simpl; [lia|].
  destruct (Split rest); simpl in *; lia.
Qed.

Lemma Split_no_newline (s : string) :
  Forall (fun seg => no_newline seg = true) (Split s).
Proof.
  induction s as [|c rest IH]; simpl.
  - repeat constructor.
  - destruct (Ascii.eqb c newline) eqn:Hc.
    + constructor; [reflexivity | exact IH].
    + destruct (Split rest) as [|seg segs].
      * repeat constructor. simpl. now rewrite Hc.
      * inversion IH; subst. constructor; [|assumption].
        simpl. rewrite Hc. assumption.
Qed.

Lemma Join_cons (e : string) (rest : list string) (sep : string) :
  rest <> [] -> Join (e :: rest) sep = e ++ sep ++ Join rest sep.
Proof. destruct rest; [congruence | reflexivity]. Qed.

Lemma Join_Split (s : string) : Join (Split s) nl = s.
Proof.
  induction s as [|c rest IH]; simpl; [reflexivity|].
  destruct (Ascii.eqb c newline) eqn:Hc.
  - apply Ascii.eqb_eq in Hc. subst c.
    rewrite Join_cons by apply Split_nonempty.
    rewrite IH. reflexivity.
  - pose proof (Split_nonempty rest) as Hne.
    destruct (Split rest) as [|seg segs]; [congruence|].
    destruct segs as [|seg' segs'].
    + simpl in *. now rewrite IH.
    + change (Join (String c seg :: seg' :: segs') nl)
        with (String c (seg ++ nl ++ Join (seg' :: segs') nl)).
      change (Join (seg :: seg' :: segs') nl)
        with (seg ++ nl ++ Join (seg' :: segs') nl) in IH.
      now rewrite IH.
Qed.

Lemma Split_line (seg : string) : no_newline seg = true -> Split seg = [seg].
Proof.
  induction seg as [|c rest IH]; simpl; [reflexivity|].
  intros H. apply andb_true_iff in H as [Hc Hrest].
  apply negb_true_iff in Hc. rewrite Hc, (IH Hrest). reflexivity.
Qed.

Lemma Split_line_app (seg s : string) :
  no_newline seg = true -> Split (seg ++ nl ++ s) = seg :: Split s.
Proof.
  change (nl ++ s) with (String newline s).
  induction seg as [|c rest IH]; simpl; [reflexivity|].
  intros H. apply andb_true_iff in H as [Hc Hrest].
  apply negb_true_iff in Hc. rewrite Hc, (IH Hrest). reflexivity.
Qed.

Lemma Split_Join (segs : list string) :
  segs <> [] -> Forall (fun seg => no_newline seg = true) segs ->
  Split (Join segs nl) = segs.
Proof.
  induction segs as [|seg rest IH]; [congruence|].
  intros _ Hall. inversion Hall as [|? ? Hseg Hrest]; subst.
  destruct rest as [|seg' rest'].
  - simpl. now apply Split_line.
  - rewrite Join_cons by discriminate.
    rewrite Split_line_app by assumption.
    rewrite IH; [reflexivity | discriminate | assumption].
Qed.

Lemma Split_app_newline (s : string) : Split (s ++ nl) = (Split s ++ [""])%list.
Proof.
  induction s as [|c rest IH]; simpl; [reflexivity|].
  destruct (Ascii.eqb c newline); rewrite IH; [reflexivity|].
  pose proof (Split_nonempty rest) as Hne.
  destruct (Split rest); [congruence | reflexivity].
Qed.

Lemma Forall_skipn {A} (P : A -> Prop) (k : nat) (xs : list A) :
  Forall P xs -> Forall P (skipn k xs).
Proof.
  revert xs. induction k as [|k IH]; intros xs H; simpl; [assumption|].
  destruct xs; [constructor | inversion H; auto].
Qed.

Lemma lastn_length {A} (n : nat) (xs : list A) :
  List.length (lastn n xs) = Nat.min n (List.length xs).
Proof. unfold lastn. rewrite length_skipn. lia. Qed.

Lemma lastn_all {A} (n : nat) (xs : list A) :
  (List.length xs <= n)%nat -> lastn n xs = xs.
Proof.
  intros H. unfold lastn.
  replace (List.length xs - n)%nat with 0%nat by lia. reflexivity.
Qed.

Lemma lastn_suffix {A} (n : nat) (xs : list A) :
  exists front, xs = (front ++ lastn n xs)%list /\
                List.length front = (List.length xs - n)%nat.
Proof.
  exists (firstn (List.length xs - n) xs). unfold lastn. split.
  - symmetry. apply firstn_skipn.
  - rewrite length_firstn. lia.
Qed.

(** ** Go [int] arithmetic *)

Lemma wrap_int_id (z : Z) : is_int z -> wrap_int z = z.
Proof.
  unfold is_int, int_min, int_max, wrap_int. intros H.
  rewrite Z.mod_small; lia.
Qed.

Lemma wrap_int_range (z : Z) : is_int (wrap_int z).
Proof.
  unfold is_int, int_min, int_max, wrap_int.
  pose proof (Z.mod_pos_bound (z + 2 ^ 63) (2 ^ 64) ltac:(lia)). lia.
Qed.

Lemma wrap_int_above (z : Z) :
  int_max < z < 2 ^ 64 -> wrap_int z < 0.
Proof.
  unfold int_max, wrap_int. intros H.
  replace (z + 2 ^ 63) with ((z - 2 ^ 63) + 1 * 2 ^ 64) by lia.
  rewrite Z.mod_add by lia. rewrite Z.mod_small; lia.
Qed.

(** ** [trimLines] *)

Lemma llen_Split_bound (s : string) :
  slen s < int_max -> 1 <= llen (Split s) <= int_max.
Proof.
  unfold slen, llen. intros H.
  pose proof (Split_length_pos s). pose proof (Split_length_le s). lia.
Qed.

Lemma trimLines_nonneg (s : string) (n : Z) :
  slen s < int_max -> 0 <= n ->
  trimLines s n = Some (Join (lastn (Z.to_nat n) (Split s)) nl).
Proof.
  intros Hs Hn. unfold trimLines.
  pose proof (llen_Split_bound s Hs) as Hlen.
  destruct (llen (Split s) >? n) eqn:Hgt.
  - apply Z.gtb_lt in Hgt.
    rewrite wrap_int_id by (unfold is_int, int_min, int_max in *; lia).
    replace ((0 <=? llen (Split s) - n) && (llen (Split s) - n <=? llen (Split s)))
      with true by (symmetry; apply andb_true_iff; split; apply Z.leb_le; lia).
    unfold lastn, llen in *. do 3 f_equal. lia.
  - rewrite Z.gtb_ltb in Hgt. apply Z.ltb_ge in Hgt.
    rewrite lastn_all; [reflexivity|]. unfold llen in *. lia.
Qed.

Lemma trimLines_negative (s : string) (n : Z) :
  slen s < int_max -> is_int n -> n < 0 -> trimLines s n = None.
Proof.
  intros Hs Hn Hneg. unfold trimLines.
  pose proof (llen_Split_bound s Hs) as Hlen.
  replace (llen (Split s) >? n) with true by (symmetry; apply Z.gtb_lt; lia).
  destruct (Z_le_gt_dec (llen (Split s) - n) int_max) as [Hfit|Hover].
  - rewrite wrap_int_id by (unfold is_int, int_min, int_max in *; lia).
    replace (llen (Split s) - n <=? llen (Split s)) with false
      by (symmetry; apply Z.leb_gt; lia).
    now rewrite andb_false_r.
  - pose proof (wrap_int_above (llen (Split s) - n)) as Hw.
    unfold is_int, int_min, int_max in *.
    replace (0 <=? wrap_int (llen (Split s) - n)) with false
      by (symmetry; apply Z.leb_gt; apply Hw; lia).
    reflexivity.
Qed.

Lemma trimLines_lines (s : string) (n : Z) :
  slen s < int_max -> 1 <= n ->
  Split (Join (lastn (Z.to_nat n) (Split s)) nl) = lastn (Z.to_nat n) (Split s).
Proof.
  intros Hs Hn. apply Split_Join.
  - intros Hnil. apply (f_equal (@List.length string)) in Hnil.
    rewrite lastn_length in Hnil. pose proof (Split_length_pos s). simpl in Hnil. lia.
  - apply Forall_skipn, Split_no_newline.
Qed.

Lemma length_append (s1 s2 : string) :
  String.length (s1 ++ s2) = (String.length s1 + String.length s2)%nat.
Proof. induction s1 as [|c s1 IH]; simpl; [reflexivity | now rewrite IH]. Qed.

Lemma Join_suffix_length (front back : list string) :
  (String.length (Join back nl) <= String.length (Join (front ++ back) nl))%nat.
Proof.
  induction front as [|e front IH]; [apply Nat.le_refl|].
  change ((e :: front) ++ back)%list with (e :: (front ++ back))%list.
  destruct (front ++ back)%list eqn:Hfb.
  - apply app_eq_nil in Hfb as [_ ->]. apply Nat.le_0_l.
  - rewrite Join_cons by discriminate.
    rewrite !length_append. lia.
Qed.

Lemma slen_Join_lastn (s : string) (n : nat) :
  slen (Join (lastn n (Split s)) nl) <= slen s.
Proof.
  destruct (lastn_suffix n (Split s)) as [front [Hsplit _]].
  unfold slen. apply inj_le.
  rewrite <- (Join_Split s) at 2. rewrite Hsplit at 2.
  apply Join_suffix_length.
Qed.

Lemma Split_length_count (s : string) :
  List.length (Split s) = S (CountNewlines s).
Proof.
  induction s as [|c rest IH]; simpl; [reflexivity|].
  destruct (Ascii.eqb c newline); simpl; [now rewrite IH|].
  destruct (Split rest); simpl in *; congruence.
Qed.

Lemma lastn_snoc {A} (n : nat) (xs : list A) (x : A) :
  lastn (S n) (xs ++ [x]) = (lastn n xs ++ [x])%list.
Proof.
  unfold lastn. rewrite length_app. simpl List.length.
  replace (List.length xs + 1 - S n)%nat with (List.length xs - n)%nat by lia.
  rewrite skipn_app.
  replace (List.length xs - n - List.length xs)%nat with 0%nat by lia.
  reflexivity.
Qed.

Lemma lastn_0 {A} (xs : list A) : lastn 0 xs = [].
Proof. unfold lastn. rewrite Nat.sub_0_r. apply skipn_all. Qed.

Lemma last_skipn {A} (k : nat) (xs : list A) (d : A) :
  (k < List.length xs)%nat -> last (skipn k xs) d = last xs d.
Proof.
  revert xs. induction k as [|k IH]; intros xs Hk; [reflexivity|].
  destruct xs as [|x xs]; simpl in Hk; [lia|].
  simpl skipn. rewrite IH by lia.
  destruct xs; [simpl in Hk; lia | reflexivity].
Qed.

Lemma removelast_skipn {A} (k : nat) (xs : list A) :
  (k < List.length xs)%nat -> removelast (skipn k xs) = skipn k (removelast xs).
Proof.
  revert xs. induction k as [|k IH]; intros xs Hk; [reflexivity|].
  destruct xs as [|x xs]; simpl in Hk; [lia|].
  simpl skipn. rewrite IH by lia.
  destruct xs; [simpl in Hk; lia | reflexivity].
Qed.

Lemma removelast_length {A} (xs : list A) :
  List.length (removelast xs) = Nat.pred (List.length xs).
Proof.
  induction xs as [|x xs IH]; [reflexivity|].
  destruct xs; [reflexivity|]. simpl in *. now rewrite IH.
Qed.

Lemma last_lastn {A} (n : nat) (xs : list A) (d : A) :
  (1 <= n)%nat -> xs <> [] -> last (lastn n xs) d = last xs d.
Proof.
  intros Hn Hxs. unfold lastn. apply last_skipn.
  destruct xs; [congruence | cbn [List.length]; lia].
Qed.

Lemma removelast_lastn {A} (n : nat) (xs : list A) :
  (1 <= n)%nat -> xs <> [] -> removelast (lastn n xs) = lastn (n - 1) (removelast xs).
Proof.
  intros Hn Hxs. unfold lastn. rewrite removelast_length.
  assert (1 <= List.length xs)%nat by (destruct xs; [congruence | cbn [List.length]; lia]).
  rewrite removelast_skipn by lia. f_equal. lia.
Qed.

(** C3 (as amended): for every Go string [s] and every count [n >= 0],
    [trimLines s n] returns the last [n] of the segments of [s] between
    newline bytes, joined by newlines (all of them when [s] has fewer), these
    are exactly the segments of the result when [n >= 1], and applying
    [trimLines] again with the same [n] returns the same string.  In lines as
    a reader counts them, for [n >= 1]: of a text that ends in a newline (or
    is empty) the result holds the last [n - 1] lines, the empty segment
    after the final newline taking one of the [n] places; of any other text
    it holds the last [n] lines. *)
Theorem trimLines_last_lines_idempotent (s : string) (n : Z) :
  slen s < int_max -> 0 <= n ->
  exists t,
    trimLines s n = Some t /\
    t = Join (lastn (Z.to_nat n) (Split s)) nl /\
    (1 <= n -> Split t = lastn (Z.to_nat n) (Split s)) /\
    trimLines t n = Some t /\
    (1 <= n ->
     textLines t =
     lastn (if String.eqb (last (Split s) "") "" then Z.to_nat n - 1 else Z.to_nat n)
           (textLines s)).
Proof.
  intros Hs Hn. eexists. split; [apply trimLines_nonneg; assumption|].
  split; [reflexivity|]. split; [apply trimLines_lines; assumption|].
  pose proof (slen_Join_lastn s (Z.to_nat n)) as Hlen.
  split.
  - rewrite trimLines_nonneg by lia. f_equal.
    destruct (Z.eq_dec n 0) as [->|Hpos].
    + simpl Z.to_nat. rewrite !lastn_0. reflexivity.
    + rewrite trimLines_lines by lia.
      rewrite lastn_all; [reflexivity|]. rewrite lastn_length. lia.
  - intros Hpos. unfold textLines.
    rewrite trimLines_lines by assumption.
    rewrite last_lastn by (try apply Split_nonempty; lia).
    destruct (String.eqb (last (Split s) "") "").
    + apply removelast_lastn; [lia | apply Split_nonempty].
    + reflexivity.
Qed.

Lemma trimLines_last_lines_idempotent_witness :
  let s := "one" ++ nl ++ "two" ++ nl ++ "three" ++ nl in
  slen s < int_max /\ 0 <= 2 /\
  exists t, trimLines s 2 = Some t /\
            t = "three" ++ nl /\
            trimLines t 2 = Some t /\
            textLines t = ["three"].
Proof.
  split; [vm_compute; reflexivity|]. split; [lia|].
  destruct (trimLines_last_lines_idempotent
              ("one" ++ nl ++ "two" ++ nl ++ "three" ++ nl) 2
              ltac:(vm_compute; reflexivity) ltac:(lia))
    as (t & Ht & Heq & _ & Hidem & Hlines).
  exists t. split; [exact Ht|]. split; [rewrite Heq; vm_compute; reflexivity|].
  split; [exact Hidem|].
  rewrite (Hlines ltac:(lia)). vm_compute. reflexivity.
Defined.

(** C3 (as stated) fails on an output that ends in a newline, as the output
    of a command does: of twenty lines "A" to "T", each ended by a newline,
    [trimLines] with the window of 20 that [View] uses returns the last
    nineteen, "B" to "T", not the last twenty. *)
Lemma trimLines_trailing_newline_loses_line :
  let out := Join (Plain.numbered 20) nl ++ nl in
  textLines out = Plain.numbered 20 /\
  lastn 20 (textLines out) = Plain.numbered 20 /\
  (exists t, trimLines out 20 = Some t /\
             textLines t = tl (Plain.numbered 20) /\
             List.length (textLines t) = 19%nat) /\
  ~ (exists t, trimLines out 20 = Some t /\ textLines t = lastn 20 (textLines out)).
Proof.
  intros out.
  split; [vm_compute; reflexivity|]. split; [vm_compute; reflexivity|].
  split.
  - eexists. split; [vm_compute; reflexivity|]. split; vm_compute; reflexivity.
  - intros (t & Ht & Hlines). vm_compute in Ht. injection Ht as <-.
    vm_compute in Hlines. discriminate Hlines.
Qed.

(** C10: [trimLines] counts the segments between newline bytes: a string has
    one segment more than newlines, so an input that ends in a newline has a
    final empty segment, which takes one of the [n] places of the window; and
    [trimLines("a\nb\nc\n", 3) = "b\nc\n"], with two non-empty lines. *)
Theorem trimLines_final_empty_segment :
  (forall s, List.length (Split s) = S (CountNewlines s)) /\
  (forall s, Split (s ++ nl) = (Split s ++ [""])%list) /\
  (forall s n, slen (s ++ nl) < int_max ->
               trimLines (s ++ nl) (Z.of_nat (S n)) =
               Some (Join (lastn n (Split s) ++ [""]) nl)) /\
  trimLines ("a" ++ nl ++ "b" ++ nl ++ "c" ++ nl) 3 = Some ("b" ++ nl ++ "c" ++ nl) /\
  Split ("b" ++ nl ++ "c" ++ nl) = ["b"; "c"; ""].
Proof.
  split; [exact Split_length_count|]. split; [exact Split_app_newline|].
  split; [|split; vm_compute; reflexivity].
  intros s n Hs.
  rewrite trimLines_nonneg by lia.
  rewrite Nat2Z.id, Split_app_newline, lastn_snoc. reflexivity.
Qed.

Lemma trimLines_final_empty_segment_witness :
  let s := "a" ++ nl ++ "b" ++ nl ++ "c" in
  slen (s ++ nl) < int_max /\
  trimLines (s ++ nl) (Z.of_nat 3) = Some (Join (lastn 2 (Split s) ++ [""]) nl).
Proof.
  split; [vm_compute; reflexivity|].
  apply (proj1 (proj2 (proj2 trimLines_final_empty_segment))).
  vm_compute; reflexivity.
Defined.

(** ** [firstLine] *)

Lemma IndexByte_lower (s : string) (c : ascii) : -1 <= IndexByte s c.
Proof.
  induction s as [|b rest IH]; simpl; [lia|].
  destruct (Ascii.eqb b c); [lia|].
  destruct (IndexByte rest c <? 0) eqn:E; [lia|]. apply Z.ltb_ge in E. lia.
Qed.

Lemma firstLine_cons (c : ascii) (rest : string) :
  firstLine (String c rest) =
  if Ascii.eqb c newline then "" else String c (firstLine rest).
Proof.
  unfold firstLine. simpl.
  destruct (Ascii.eqb c newline); [reflexivity|].
  pose proof (IndexByte_lower rest newline) as Hlow.
  destruct (IndexByte rest newline <? 0) eqn:E.
  - apply Z.ltb_lt in E.
    replace (0 <=? IndexByte rest newline) with false by (symmetry; apply Z.leb_gt; lia).
    reflexivity.
  - apply Z.ltb_ge in E.
    replace (0 <=? IndexByte rest newline + 1) with true by (symmetry; apply Z.leb_le; lia).
    replace (0 <=? IndexByte rest newline) with true by (symmetry; apply Z.leb_le; lia).
    rewrite Z2Nat.inj_add by lia. rewrite Nat.add_1_r. reflexivity.
Qed.

(** [firstLine s] is the first of the lines of [s]. *)
Lemma firstLine_Split (s : string) : Split s = firstLine s :: tl (Split s).
Proof.
  induction s as [|c rest IH]; [reflexivity|].
  rewrite firstLine_cons. simpl.
  destruct (Ascii.eqb c newline); [reflexivity|].
  rewrite IH. reflexivity.
Qed.

Lemma firstLine_no_newline (s : string) : no_newline (firstLine s) = true.
Proof.
  pose proof (Split_no_newline s) as H. rewrite firstLine_Split in H.
  now inversion H.
Qed.

(** ** [TrimSpace] on ASCII padding *)

Lemma bytes_of_app (s1 s2 : string) :
  bytes_of (s1 ++ s2) = (bytes_of s1 ++ bytes_of s2)%list.
Proof.
  unfold bytes_of. induction s1 as [|c s1 IH]; simpl; [reflexivity|].
  f_equal. exact IH.
Qed.

Lemma string_of_bytes_of (s : string) : string_of (bytes_of s) = s.
Proof.
  unfold string_of, bytes_of. rewrite map_map.
  rewrite (map_ext _ (fun a => a)) by (intros a; apply ascii_N_embedding).
  rewrite map_id. apply string_of_list_ascii_of_string.
Qed.

Lemma trim_front_stop (width : list N -> nat) (fuel : nat) (bs : list N) :
  width bs = 0%nat -> trim_front width fuel bs = bs.
Proof. intros H. destruct fuel; simpl; [reflexivity | now rewrite H]. Qed.

Lemma trim_front_pad (width : list N -> nat) (pad core : list N) :
  (forall b rest, asciiSpace b = true -> width (b :: rest) = 1%nat) ->
  Forall (fun b => asciiSpace b = true) pad ->
  width core = 0%nat ->
  forall fuel, (List.length pad <= fuel)%nat ->
  trim_front width fuel (pad ++ core) = core.
Proof.
  intros Hone Hpad Hcore.
  induction Hpad as [|b pad Hb Hpad IH]; intros fuel Hfuel.
  - now apply trim_front_stop.
  - destruct fuel as [|fuel]; [simpl in Hfuel; lia|].
    simpl. rewrite (Hone b _ Hb). simpl. apply IH. simpl in Hfuel. lia.
Qed.

Lemma space_prefix_ascii (b : N) (rest : list N) :
  asciiSpace b = true -> space_prefix (b :: rest) = 1%nat.
Proof. intros H. simpl. now rewrite H. Qed.

Lemma space_suffix_ascii (b : N) (rest : list N) :
  asciiSpace b = true -> space_suffix (b :: rest) = 1%nat.
Proof. intros H. unfold space_suffix. simpl. now rewrite H. Qed.

(** White space of ASCII bytes around a word is trimmed away. *)
Lemma TrimSpace_padded (pre core post : string) :
  Forall (fun b => asciiSpace b = true) (bytes_of pre) ->
  Forall (fun b => asciiSpace b = true) (bytes_of post) ->
  space_prefix (bytes_of core ++ bytes_of post) = 0%nat ->
  space_suffix (rev (bytes_of core)) = 0%nat ->
  TrimSpace (pre ++ core ++ post) = core.
Proof.
  intros Hpre Hpost Hfront Hback. unfold TrimSpace.
  rewrite !bytes_of_app.
  rewrite (trim_front_pad space_prefix (bytes_of pre) _ space_prefix_ascii Hpre Hfront)
    by (rewrite length_app; lia).
  rewrite rev_app_distr.
  rewrite (trim_front_pad space_suffix (rev (bytes_of post)) _ space_suffix_ascii)
    by (try apply Forall_rev; try assumption; rewrite length_app, !length_rev; lia).
  rewrite rev_involutive. apply string_of_bytes_of.
Qed.

(** ** The update step *)

Section AppProperties.
Context {TK : Toolkit}.

Lemma updateTail_frame (m : model TK) (msg : Msg ExtMsg) (cmds : list (Cmd ExtCmd)) :
  let m' := fst (updateTail m msg cmds) in
  status m' = status m /\ loading m' = loading m /\
  lastOutput m' = lastOutput m /\ err m' = err m /\
  cancelFunc m' = cancelFunc m.
Proof.
  unfold updateTail.
  destruct (loading m) eqn:Hl.
  - destruct (spin_Update (spin m) msg) as [sp c]. simpl.
    destruct (list_Update (mlist m) msg) as [l c']. simpl. auto.
  - destruct (list_Update (mlist m) msg) as [l c']. simpl. auto.
Qed.

Lemma asyncRun_returns (m : model TK) (tag unit : string) (w : World) :
  asyncRun m tag unit w =
  Returns
    ({| mlist := mlist m; spin := spin m; status := tag ++ " " ++ unit;
        lastOutput := lastOutput m; loading := true; err := err m;
        cancelFunc := Some (next_ctx w) |},
     CmdBatch [CmdFirstTick; CmdRun (next_ctx w) tag unit])
    {| next_ctx := S (next_ctx w); cancel_calls := cancel_calls w |}.
Proof. reflexivity. Qed.

Lemma dispatchTag_keys (k : string) (it : unitItem) (tag : string) :
  dispatchTag k it = Some tag -> In k ["enter"; "r"; " "; "l"].
Proof.
  unfold dispatchTag.
  destruct (String.eqb k "enter") eqn:E1; [apply String.eqb_eq in E1; subst; simpl; auto|].
  destruct (String.eqb k "r") eqn:E2; [apply String.eqb_eq in E2; subst; simpl; auto|].
  destruct (String.eqb k " ") eqn:E3; [apply String.eqb_eq in E3; subst; simpl; auto|].
  destruct (String.eqb k "l") eqn:E4; [apply String.eqb_eq in E4; subst; simpl; auto|].
  discriminate.
Qed.

(** An operation key on a selected item is [asyncRun] with the key's tag. *)
Lemma Update_dispatch (m : model TK) (k : string) (it : unitItem) (tag : string) :
  list_SelectedItem (mlist m) = Some it ->
  dispatchTag k it = Some tag ->
  Update m (KeyMsg k) = asyncRun m tag (title it).
Proof.
  intros Hsel Htag.
  pose proof (dispatchTag_keys k it tag Htag) as Hk.
  simpl in Hk.
  destruct Hk as [<-|[<-|[<-|[<-|[]]]]];
    unfold dispatchTag in Htag; simpl in Htag; injection Htag as <-;
    unfold Update, selectedUnit; simpl; rewrite Hsel; reflexivity.
Qed.

(** Without a selected item an operation key panics. *)
Lemma Update_dispatch_no_selection (m : model TK) (k : string) (w : World) :
  list_SelectedItem (mlist m) = None ->
  In k ["enter"; "r"; " "; "l"] ->
  exists reason, Update m (KeyMsg k) w = Panics reason.
Proof.
  intros Hsel Hk. simpl in Hk.
  destruct Hk as [<-|[<-|[<-|[<-|[]]]]];
    unfold Update, selectedUnit, bind, panic; simpl; rewrite Hsel; eauto.
Qed.

Lemma Update_output (m : model TK) (tag out : string) (w : World) :
  exists m' c,
    Update m (OutputMsg tag out) w =
      Returns (m', c)
        {| next_ctx := next_ctx w;
           cancel_calls := (cancel_calls w ++
                            match cancelFunc m with Some f => [f] | None => [] end)%list |} /\
    loading m' = false /\
    status m' = "[" ++ tag ++ "] " ++ firstLine out /\
    lastOutput m' = out /\
    err m' = err m /\
    cancelFunc m' = cancelFunc m /\
    mlist m' = fst (list_Update (mlist m) (OutputMsg tag out)).
Proof.
  unfold Update, bind, cancelIfSet, ret, invoke. cbn [cancelFunc set_lastOutput set_status set_loading].
  set (m1 := set_lastOutput _ _).
  pose proof (updateTail_frame m1 (OutputMsg tag out) []) as Hf. simpl in Hf.
  destruct Hf as (Hst & Hl & Hlo & He & Hc).
  assert (Hlist : mlist (fst (updateTail m1 (OutputMsg tag out) [])) =
                  fst (list_Update (mlist m) (OutputMsg tag out))).
  { unfold updateTail. simpl. destruct (list_Update (mlist m) (OutputMsg tag out)). reflexivity. }
  destruct (updateTail m1 (OutputMsg tag out) []) as [m' c]. simpl in *.
  exists m', c.
  destruct (cancelFunc m); (split; [try reflexivity | auto 10]).
  destruct w; simpl. now rewrite app_nil_r.
Qed.

Lemma Update_err (m : model TK) (e : string) (w : World) :
  exists m' c,
    Update m (ErrMsg (Some e)) w =
      Returns (m', c)
        {| next_ctx := next_ctx w;
           cancel_calls := (cancel_calls w ++
                            match cancelFunc m with Some f => [f] | None => [] end)%list |} /\
    loading m' = false /\
    status m' = "Error: " ++ e /\
    lastOutput m' = lastOutput m /\
    err m' = Some e /\
    cancelFunc m' = cancelFunc m /\
    mlist m' = fst (list_Update (mlist m) (ErrMsg (Some e))).
Proof.
  unfold Update, bind, cancelIfSet, ret, invoke. cbn [cancelFunc set_err set_status set_loading].
  set (m1 := set_status _ _).
  pose proof (updateTail_frame m1 (ErrMsg (Some e)) []) as Hf. simpl in Hf.
  destruct Hf as (Hst & Hl & Hlo & He & Hc).
  assert (Hlist : mlist (fst (updateTail m1 (ErrMsg (Some e)) [])) =
                  fst (list_Update (mlist m) (ErrMsg (Some e)))).
  { unfold updateTail. simpl. destruct (list_Update (mlist m) (ErrMsg (Some e))). reflexivity. }
  destruct (updateTail m1 (ErrMsg (Some e)) []) as [m' c]. simpl in *.
  exists m', c.
  destruct (cancelFunc m); (split; [try reflexivity | auto 10]).
  destruct w; simpl. now rewrite app_nil_r.
Qed.

Lemma Update_result (m : model TK) (msg : Msg ExtMsg) (w : World) :
  isResult msg = true ->
  exists m' c,
    Update m msg w =
      Returns (m', c)
        {| next_ctx := next_ctx w;
           cancel_calls := (cancel_calls w ++
                            match cancelFunc m with Some f => [f] | None => [] end)%list |} /\
    loading m' = false /\ cancelFunc m' = cancelFunc m.
Proof.
  destruct msg as [k|tag out|[e|]| |x]; try discriminate; intros _.
  - destruct (Update_output m tag out w) as (m' & c & H & Hl & _ & _ & _ & Hc & _).
    exists m', c. auto.
  - destruct (Update_err m e w) as (m' & c & H & Hl & _ & _ & _ & Hc & _).
    exists m', c. auto.
Qed.

Lemma run_two_dispatches (m : model TK) (w : World) (it : unitItem)
      (kA kB tagA tagB : string) (rest : list (Msg ExtMsg)) :
  list_SelectedItem (mlist m) = Some it ->
  dispatchTag kA it = Some tagA ->
  dispatchTag kB it = Some tagB ->
  run m (KeyMsg kA :: KeyMsg kB :: rest) w =
  run (afterTwo m w tagB (title it)) rest
      {| next_ctx := S (S (next_ctx w)); cancel_calls := cancel_calls w |}.
Proof.
  intros Hsel HA HB.
  cbn [run]. unfold bind at 1.
  rewrite (Update_dispatch m kA it tagA Hsel HA), asyncRun_returns.
  cbn [fst]. unfold bind at 1.
  match goal with
  | |- context [Update ?mA (KeyMsg kB)] =>
      rewrite (Update_dispatch mA kB it tagB Hsel HB), asyncRun_returns
  end.
  reflexivity.
Qed.

Lemma run_one (m : model TK) (msg : Msg ExtMsg) (w : World) :
  run m [msg] w = match Update m msg w with
                  | Returns r w' => Returns (fst r) w'
                  | Panics reason => Panics reason
                  end.
Proof. cbn [run]. unfold bind, ret. destruct (Update m msg w); reflexivity. Qed.

Lemma run_cons (m : model TK) (msg : Msg ExtMsg) (rest : list (Msg ExtMsg)) (w : World) :
  run m (msg :: rest) w = match Update m msg w with
                          | Returns r w' => run (fst r) rest w'
                          | Panics reason => Panics reason
                          end.
Proof. reflexivity. Qed.

(** C1 (as amended): [Update] does not tell results apart.  After operation A
    and then operation B were started, an [outputMsg] of the abandoned A is
    applied like any other: loading is cleared, the status line becomes
    "[tagA] " and the first line of A's output, and A's full output is
    stored.  A result of B is applied in the same way, and when both arrive
    the state shows the one consumed last. *)
Theorem results_applied_in_arrival_order
    (m : model TK) (w : World) (it : unitItem)
    (kA kB tagA tagB outA outB : string) :
  list_SelectedItem (mlist m) = Some it ->
  dispatchTag kA it = Some tagA ->
  dispatchTag kB it = Some tagB ->
  (exists mB wB, run m [KeyMsg kA; KeyMsg kB] w = Returns mB wB /\
     loading mB = true /\ status mB = tagB ++ " " ++ title it /\
     lastOutput mB = lastOutput m) /\
  (exists m3 w3, run m [KeyMsg kA; KeyMsg kB; OutputMsg tagA outA] w = Returns m3 w3 /\
     loading m3 = false /\ status m3 = "[" ++ tagA ++ "] " ++ firstLine outA /\
     lastOutput m3 = outA) /\
  (exists m3 w3, run m [KeyMsg kA; KeyMsg kB; OutputMsg tagB outB] w = Returns m3 w3 /\
     loading m3 = false /\ status m3 = "[" ++ tagB ++ "] " ++ firstLine outB /\
     lastOutput m3 = outB) /\
  (exists m4 w4,
     run m [KeyMsg kA; KeyMsg kB; OutputMsg tagA outA; OutputMsg tagB outB] w =
       Returns m4 w4 /\
     loading m4 = false /\ status m4 = "[" ++ tagB ++ "] " ++ firstLine outB /\
     lastOutput m4 = outB) /\
  (exists m4 w4,
     run m [KeyMsg kA; KeyMsg kB; OutputMsg tagB outB; OutputMsg tagA outA] w =
       Returns m4 w4 /\
     loading m4 = false /\ status m4 = "[" ++ tagA ++ "] " ++ firstLine outA /\
     lastOutput m4 = outA).
Proof.
  intros Hsel HA HB.
  pose proof (fun rest => run_two_dispatches m w it kA kB tagA tagB rest Hsel HA HB) as Hrun.
  set (mB := afterTwo m w tagB (title it)) in *.
  set (wB := {| next_ctx := S (S (next_ctx w)); cancel_calls := cancel_calls w |}) in *.
  assert (Hone : forall (m0 : model TK) w0 tag out, exists m' w',
             run m0 [OutputMsg tag out] w0 = Returns m' w' /\
             loading m' = false /\ status m' = "[" ++ tag ++ "] " ++ firstLine out /\
             lastOutput m' = out).
  { intros m0 w0 tag out.
    destruct (Update_output m0 tag out w0) as (m' & c & H & Hl & Hs & Ho & _).
    rewrite run_one, H. eauto 10. }
  assert (Htwo : forall (m0 : model TK) w0 tag1 out1 tag out, exists m' w',
             run m0 [OutputMsg tag1 out1; OutputMsg tag out] w0 = Returns m' w' /\
             loading m' = false /\ status m' = "[" ++ tag ++ "] " ++ firstLine out /\
             lastOutput m' = out).
  { intros m0 w0 tag1 out1 tag out.
    destruct (Update_output m0 tag1 out1 w0) as (m1 & c & H & _).
    rewrite run_cons, H. apply Hone. }
  repeat split.
  - exists mB, wB. rewrite Hrun. repeat split; reflexivity.
  - rewrite Hrun. apply Hone.
  - rewrite Hrun. apply Hone.
  - rewrite Hrun. apply Htwo.
  - rewrite Hrun. apply Htwo.
Qed.

(** C9: every [outputMsg] or [errMsg] that [Update] consumes invokes the
    cancel function stored in the state at that moment, when there is one,
    and nothing else; so when A and then B were started, a late result of A
    invokes the cancel function of B's context, which is not A's, and B's
    stays stored. *)
Theorem result_invokes_stored_cancel :
  (forall (m : model TK) (msg : Msg ExtMsg) (w : World),
     isResult msg = true ->
     exists m' c w',
       Update m msg w = Returns (m', c) w' /\
       cancel_calls w' =
         (cancel_calls w ++ match cancelFunc m with Some f => [f] | None => [] end)%list /\
       cancelFunc m' = cancelFunc m) /\
  (forall (m : model TK) (w : World) (it : unitItem)
          (kA kB tagA tagB : string) (resA : Msg ExtMsg),
     list_SelectedItem (mlist m) = Some it ->
     dispatchTag kA it = Some tagA ->
     dispatchTag kB it = Some tagB ->
     isResult resA = true ->
     exists ctxA ctxB mA wA mB wB m3 w3,
       Update m (KeyMsg kA) w =
         Returns (mA, CmdBatch [CmdFirstTick; CmdRun ctxA tagA (title it)]) wA /\
       Update mA (KeyMsg kB) wA =
         Returns (mB, CmdBatch [CmdFirstTick; CmdRun ctxB tagB (title it)]) wB /\
       ctxA <> ctxB /\
       cancelFunc mB = Some ctxB /\
       cancel_calls wB = cancel_calls w /\
       run m [KeyMsg kA; KeyMsg kB; resA] w = Returns m3 w3 /\
       cancel_calls w3 = (cancel_calls w ++ [ctxB])%list /\
       cancelFunc m3 = Some ctxB).
Proof.
  split.
  - intros m msg w Hres.
    destruct (Update_result m msg w Hres) as (m' & c & H & _ & Hc).
    exists m', c. eexists. split; [exact H|]. split; [reflexivity | exact Hc].
  - intros m w it kA kB tagA tagB resA Hsel HA HB Hres.
    exists (next_ctx w), (S (next_ctx w)).
    pose proof (Update_dispatch m kA it tagA Hsel HA) as HUA.
    do 2 eexists.
    exists (afterTwo m w tagB (title it)).
    exists {| next_ctx := S (S (next_ctx w)); cancel_calls := cancel_calls w |}.
    destruct (Update_result (afterTwo m w tagB (title it)) resA
                {| next_ctx := S (S (next_ctx w)); cancel_calls := cancel_calls w |} Hres)
      as (m3 & c & H3 & _ & Hc3).
    exists m3. eexists.
    split; [rewrite HUA; apply asyncRun_returns|].
    split.
    { match goal with
      | |- context [Update ?mA (KeyMsg kB)] =>
          rewrite (Update_dispatch mA kB it tagB Hsel HB)
      end. rewrite asyncRun_returns. reflexivity. }
    split; [apply Nat.neq_succ_diag_r|].
    split; [reflexivity|]. split; [reflexivity|].
    split; [rewrite (run_two_dispatches m w it kA kB tagA tagB _ Hsel HA HB), run_one, H3;
            reflexivity|].
    split; [reflexivity | exact Hc3].
Qed.

(** ** Dispatch *)

(** C2: for every unit, the [toggle] dispatch runs the probe
    [systemctl is-enabled <unit>], trims its output and compares it with
    "enabled": when they are equal the command is
    [systemctl disable --now <unit>], for every other probe output it is
    [systemctl enable --now <unit>]; the closure then runs that command.  In
    particular "enabled" with ASCII white space around it takes the disable
    path. *)
Theorem toggle_dispatch (h : Host) (u : string) :
  let probe := TrimSpace (cmd_Output h (probeLine u)) in
  commandLine h "toggle" u =
    Some (if String.eqb probe "enabled" then disablePath u else enablePath u) /\
  (probe = "enabled" <-> commandLine h "toggle" u = Some (disablePath u)) /\
  (probe <> "enabled" <-> commandLine h "toggle" u = Some (enablePath u)) /\
  (forall ctx,
     runCommand h ctx "toggle" u =
     match cmd_Run h ctx (if String.eqb probe "enabled" then disablePath u
                          else enablePath u) with
     | (Some e, _) => ErrMsg (Some e)
     | (None, out) => OutputMsg "toggle" out
     end) /\
  (forall pre post,
     Forall (fun b => asciiSpace b = true) (bytes_of pre) ->
     Forall (fun b => asciiSpace b = true) (bytes_of post) ->
     cmd_Output h (probeLine u) = pre ++ "enabled" ++ post ->
     commandLine h "toggle" u = Some (disablePath u)).
Proof.
  intros probe.
  assert (Hcmd : commandLine h "toggle" u =
                 Some (if String.eqb probe "enabled" then disablePath u else enablePath u)).
  { unfold commandLine, probe, probeLine. simpl.
    destruct (String.eqb _ "enabled"); reflexivity. }
  split; [exact Hcmd|].
  split; [|split; [|split]].
  - rewrite Hcmd. destruct (String.eqb probe "enabled") eqn:E.
    + apply String.eqb_eq in E. tauto.
    + apply String.eqb_neq in E. split; [tauto|]. intros H. discriminate H.
  - rewrite Hcmd. destruct (String.eqb probe "enabled") eqn:E.
    + apply String.eqb_eq in E. split; [tauto|]. intros H. discriminate H.
    + apply String.eqb_neq in E. tauto.
  - intros ctx. unfold runCommand. rewrite Hcmd. reflexivity.
  - intros pre post Hpre Hpost Hout. rewrite Hcmd.
    unfold probe. rewrite Hout.
    rewrite (TrimSpace_padded pre "enabled" post Hpre Hpost); reflexivity.
Qed.

(** C4 (as amended): the space key starts, on the selected item, the
    operation tagged "toggle" when the item's title ends in ".timer" (the
    timer unit) and the one tagged "enable" otherwise (the service unit),
    whose command is [systemctl enable --now <unit>], not the start
    command. *)
Theorem space_dispatch (m : model TK) (w : World) (it : unitItem) :
  list_SelectedItem (mlist m) = Some it ->
  let tag := if HasSuffix (title it) ".timer" then "toggle" else "enable" in
  (exists m' w',
     Update m (KeyMsg " ") w =
       Returns (m', CmdBatch [CmdFirstTick; CmdRun (next_ctx w) tag (title it)]) w' /\
     loading m' = true /\ status m' = tag ++ " " ++ title it) /\
  (title it = timerName -> tag = "toggle") /\
  (title it = serviceName ->
     tag = "enable" /\
     forall h, commandLine h tag (title it) = Some (enablePath serviceName)).
Proof.
  intros Hsel tag. split; [|split].
  - assert (Htag : dispatchTag " " it = Some tag) by reflexivity.
    rewrite (Update_dispatch m " " it tag Hsel Htag), asyncRun_returns.
    do 2 eexists. split; [reflexivity|]. split; reflexivity.
  - intros Ht. unfold tag. rewrite Ht. reflexivity.
  - intros Ht. unfold tag. rewrite Ht. split; [reflexivity|]. intros h. reflexivity.
Qed.

(** C5 (as amended): when the command of an operation succeeds with captured
    output [out], consuming its result clears the loading flag, stores the
    full output and sets the status line to "[<tag>] " followed by the first
    line of [out]. *)
Theorem successful_result_status
    (h : Host) (m : model TK) (w : World) (ctx : nat)
    (tag u : string) (argv : list string) (out : string) :
  loading m = true ->
  commandLine h tag u = Some argv ->
  cmd_Run h ctx argv = (None, out) ->
  exists m' c w',
    Update m (runCommand h ctx tag u) w = Returns (m', c) w' /\
    loading m' = false /\
    lastOutput m' = out /\
    status m' = "[" ++ tag ++ "] " ++ firstLine out /\
    Split out = firstLine out :: tl (Split out).
Proof.
  intros _ Hcmd Hrun. unfold runCommand. rewrite Hcmd, Hrun.
  destruct (Update_output m tag out w) as (m' & c & H & Hl & Hs & Ho & _).
  exists m', c. eexists. split; [exact H|].
  repeat split; auto using firstLine_Split.
Qed.

(** C8: when [systemctl] is not found on the path, [main] writes
    "systemctl not found" to standard error and exits with status 1 without
    starting the program; when it is found, the first thing [main] does is to
    start the program on the initial model, and nothing goes to standard
    error. *)
Theorem main_startup (h : Host) :
  (lookPath h "systemctl" = false ->
     main h = [WriteStderr ("systemctl not found" ++ nl); Exit 1] /\
     started (main h) = false /\
     exitCode (main h) = Some 1) /\
  (lookPath h "systemctl" = true ->
     (exists rest, main h = StartProgram newModel :: rest) /\
     started (main h) = true /\
     wroteStderr (main h) = [] /\
     exitCode (main h) = Some (match tea_Start h with Some _ => 1 | None => 0 end)).
Proof.
  unfold main. split; intros ->.
  - repeat split.
  - destruct (tea_Start h); repeat split; eauto.
Qed.

End AppProperties.

(** ** The program on concrete inputs *)

Lemma onTimer_selected : list_SelectedItem (mlist Plain.onTimer) = Some Plain.timerItem.
Proof. reflexivity. Qed.

Lemma onService_selected : list_SelectedItem (mlist Plain.onService) = Some Plain.serviceItem.
Proof. reflexivity. Qed.

(** C1 (as stated) fails: status on the timer is started (context 0), then
    start (context 1) before the first result arrives; the result of the
    abandoned status operation then replaces the status line and the stored
    output and clears the loading flag. *)
Lemma abandoned_result_changes_state :
  let resA := runCommand (TK := Plain.toolkit) (Plain.host "") 0 "status" timerName in
  exists mB wB m3 w3,
    run Plain.onTimer [KeyMsg "enter"; KeyMsg "r"] Plain.world0 = Returns mB wB /\
    cancelFunc mB = Some 1%nat /\
    status mB = "start nightly-onedrive-backup.timer" /\
    resA = OutputMsg "status"
             ("systemctl status --no-pager nightly-onedrive-backup.timer" ++ nl ++ "done") /\
    run Plain.onTimer [KeyMsg "enter"; KeyMsg "r"; resA] Plain.world0 = Returns m3 w3 /\
    status m3 = "[status] systemctl status --no-pager nightly-onedrive-backup.timer" /\
    status m3 <> status mB /\
    lastOutput m3 <> lastOutput mB /\
    loading m3 = false.
Proof.
  intros resA. do 4 eexists.
  split; [vm_compute; reflexivity|].
  split; [reflexivity|]. split; [reflexivity|]. split; [reflexivity|].
  split; [vm_compute; reflexivity|].
  split; [reflexivity|].
  split; [apply String.eqb_neq; vm_compute; reflexivity|].
  split; [apply String.eqb_neq; vm_compute; reflexivity|].
  reflexivity.
Qed.

Lemma results_applied_in_arrival_order_witness :
  list_SelectedItem (mlist Plain.onTimer) = Some Plain.timerItem /\
  dispatchTag "enter" Plain.timerItem = Some "status" /\
  dispatchTag "r" Plain.timerItem = Some "start" /\
  exists m3 w3,
    run Plain.onTimer [KeyMsg "enter"; KeyMsg "r"; OutputMsg "status" "active"] Plain.world0 =
      Returns m3 w3 /\
    loading m3 = false /\
    status m3 = "[" ++ "status" ++ "] " ++ firstLine "active" /\
    lastOutput m3 = "active".
Proof.
  split; [reflexivity|]. split; [reflexivity|]. split; [reflexivity|].
  exact (proj1 (proj2
    (results_applied_in_arrival_order (TK := Plain.toolkit)
       Plain.onTimer Plain.world0 Plain.timerItem "enter" "r" "status" "start" "active" ""
       eq_refl eq_refl eq_refl))).
Defined.

Lemma toggle_dispatch_witness :
  cmd_Output (Plain.host (" enabled" ++ nl)) (probeLine timerName) =
    " " ++ "enabled" ++ nl /\
  commandLine (Plain.host (" enabled" ++ nl)) "toggle" timerName =
    Some (disablePath timerName).
Proof.
  split; [reflexivity|].
  apply (proj2 (proj2 (proj2 (proj2
    (toggle_dispatch (TK := Plain.toolkit) (Plain.host (" enabled" ++ nl)) timerName)))) " " nl).
  - repeat constructor.
  - repeat constructor.
  - reflexivity.
Defined.

(** C4 (as stated) fails on the service unit: the space key starts the
    operation tagged "enable", whose command is
    [systemctl enable --now <unit>]; run-now, which the key [r] starts, is
    tagged "start" and runs [systemctl start <unit>]. *)
Lemma space_on_service_is_not_run_now :
  list_SelectedItem (mlist Plain.onService) = Some Plain.serviceItem /\
  (exists m' w',
     Update Plain.onService (KeyMsg " ") Plain.world0 =
       Returns (m', CmdBatch [CmdFirstTick; CmdRun 0 "enable" serviceName]) w') /\
  (exists m' w',
     Update Plain.onService (KeyMsg "r") Plain.world0 =
       Returns (m', CmdBatch [CmdFirstTick; CmdRun 0 "start" serviceName]) w') /\
  commandLine (Plain.host "") "enable" serviceName = Some (enablePath serviceName) /\
  commandLine (Plain.host "") "start" serviceName = Some (startPath serviceName) /\
  enablePath serviceName <> startPath serviceName /\
  ~ (exists m' w' ctx,
       Update Plain.onService (KeyMsg " ") Plain.world0 =
         Returns (m', CmdBatch [CmdFirstTick; CmdRun ctx "start" serviceName]) w').
Proof.
  split; [reflexivity|].
  split; [do 2 eexists; vm_compute; reflexivity|].
  split; [do 2 eexists; vm_compute; reflexivity|].
  split; [reflexivity|]. split; [reflexivity|].
  split; [discriminate|].
  intros (m' & w' & ctx & H). vm_compute in H. discriminate H.
Qed.

Lemma space_dispatch_witness :
  list_SelectedItem (mlist Plain.onService) = Some Plain.serviceItem /\
  (title Plain.serviceItem = serviceName ->
   (if HasSuffix (title Plain.serviceItem) ".timer" then "toggle" else "enable") = "enable" /\
   forall h, commandLine h
               (if HasSuffix (title Plain.serviceItem) ".timer" then "toggle" else "enable")
               (title Plain.serviceItem) = Some (enablePath serviceName)).
Proof.
  split; [reflexivity|].
  exact (proj2 (proj2
    (space_dispatch (TK := Plain.toolkit) Plain.onService Plain.world0 Plain.serviceItem eq_refl))).
Defined.

(** C5 (as stated) fails: the timer is selected, the probe reports
    "disabled", the space key starts the toggle, the enable command succeeds;
    the status line is then "[toggle] " followed by the first line of the
    output, not that first line itself. *)
Lemma status_is_not_bare_first_line :
  let h := Plain.host ("disabled" ++ nl) in
  let out := Join (enablePath timerName) " " ++ nl ++ "done" in
  exists mBusy wBusy m' c w',
    Update Plain.onTimer (KeyMsg " ") Plain.world0 =
      Returns (mBusy, CmdBatch [CmdFirstTick; CmdRun 0 "toggle" timerName]) wBusy /\
    loading mBusy = true /\
    commandLine h "toggle" timerName = Some (enablePath timerName) /\
    runCommand (TK := Plain.toolkit) h 0 "toggle" timerName = OutputMsg "toggle" out /\
    Update mBusy (runCommand h 0 "toggle" timerName) wBusy = Returns (m', c) w' /\
    firstLine out = "systemctl enable --now nightly-onedrive-backup.timer" /\
    status m' = "[toggle] systemctl enable --now nightly-onedrive-backup.timer" /\
    status m' <> firstLine out.
Proof.
  intros h out. do 5 eexists.
  split; [vm_compute; reflexivity|].
  split; [reflexivity|]. split; [reflexivity|]. split; [reflexivity|].
  split; [vm_compute; reflexivity|].
  split; [vm_compute; reflexivity|].
  split; [reflexivity|].
  apply String.eqb_neq. vm_compute. reflexivity.
Qed.

Lemma successful_result_status_witness :
  let h := Plain.host ("disabled" ++ nl) in
  let out := Join (enablePath timerName) " " ++ nl ++ "done" in
  let mBusy := afterTwo Plain.onTimer Plain.world0 "toggle" timerName in
  loading mBusy = true /\
  commandLine h "toggle" timerName = Some (enablePath timerName) /\
  cmd_Run h 1 (enablePath timerName) = (None, out) /\
  exists m' c w',
    Update mBusy (runCommand h 1 "toggle" timerName) Plain.world0 = Returns (m', c) w' /\
    loading m' = false /\
    lastOutput m' = out /\
    status m' = "[" ++ "toggle" ++ "] " ++ firstLine out /\
    Split out = firstLine out :: tl (Split out).
Proof.
  intros h out mBusy.
  split; [reflexivity|]. split; [reflexivity|]. split; [reflexivity|].
  exact (successful_result_status (TK := Plain.toolkit) h mBusy Plain.world0 1
           "toggle" timerName (enablePath timerName) out eq_refl eq_refl eq_refl).
Defined.

Lemma main_startup_witness :
  lookPath Plain.bareHost "systemctl" = false /\
  main (TK := Plain.toolkit) Plain.bareHost =
    [WriteStderr ("systemctl not found" ++ nl); Exit 1] /\
  lookPath (Plain.host "") "systemctl" = true /\
  started (main (TK := Plain.toolkit) (Plain.host "")) = true.
Proof.
  split; [reflexivity|].
  split; [exact (proj1 (proj1 (main_startup (TK := Plain.toolkit) Plain.bareHost) eq_refl))|].
  split; [reflexivity|].
  exact (proj1 (proj2 (proj2 (main_startup (TK := Plain.toolkit) (Plain.host "")) eq_refl))).
Defined.

Lemma result_invokes_stored_cancel_witness :
  list_SelectedItem (mlist Plain.onTimer) = Some Plain.timerItem /\
  dispatchTag "enter" Plain.timerItem = Some "status" /\
  dispatchTag "l" Plain.timerItem = Some "logs" /\
  isResult (ErrMsg (X := unit) (Some "exit status 3")) = true /\
  exists ctxA ctxB mA wA mB wB m3 w3,
    Update Plain.onTimer (KeyMsg "enter") Plain.world0 =
      Returns (mA, CmdBatch [CmdFirstTick; CmdRun ctxA "status" (title Plain.timerItem)]) wA /\
    Update mA (KeyMsg "l") wA =
      Returns (mB, CmdBatch [CmdFirstTick; CmdRun ctxB "logs" (title Plain.timerItem)]) wB /\
    ctxA <> ctxB /\
    cancelFunc mB = Some ctxB /\
    cancel_calls wB = cancel_calls Plain.world0 /\
    run Plain.onTimer [KeyMsg "enter"; KeyMsg "l"; ErrMsg (Some "exit status 3")] Plain.world0 =
      Returns m3 w3 /\
    cancel_calls w3 = (cancel_calls Plain.world0 ++ [ctxB])%list /\
    cancelFunc m3 = Some ctxB.
Proof.
  split; [reflexivity|]. split; [reflexivity|]. split; [reflexivity|].
  split; [reflexivity|].
  exact (proj2 (result_invokes_stored_cancel (TK := Plain.toolkit))
           Plain.onTimer Plain.world0 Plain.timerItem "enter" "l" "status" "logs"
           (ErrMsg (Some "exit status 3")) eq_refl eq_refl eq_refl eq_refl).
Defined.

(** * Further properties of the helpers *)

Lemma append_nil_r (s : string) : s ++ "" = s.
Proof. induction s as [|c s IH]; simpl; [reflexivity | now rewrite IH]. Qed.

Lemma append_assoc (s1 s2 s3 : string) : (s1 ++ s2) ++ s3 = s1 ++ (s2 ++ s3).
Proof. induction s1 as [|c s1 IH]; simpl; [reflexivity | now rewrite IH]. Qed.

Lemma Join_app_suffix (front back : list string) :
  exists lead, Join (front ++ back) nl = lead ++ Join back nl.
Proof.
  induction front as [|e front [lead IH]]; [exists ""; reflexivity|].
  change ((e :: front) ++ back)%list with (e :: (front ++ back))%list.
  destruct (front ++ back)%list eqn:Hfb.
  - apply app_eq_nil in Hfb as [_ ->]. exists e. simpl. now rewrite append_nil_r.
  - rewrite Join_cons by discriminate. rewrite IH.
    exists (e ++ nl ++ lead). now rewrite !append_assoc.
Qed.

Lemma lastn_lastn {A} (n k : nat) (xs : list A) :
  lastn k (lastn n xs) = lastn (Nat.min n k) xs.
Proof.
  unfold lastn. rewrite length_skipn, skipn_skipn. f_equal. lia.
Qed.

(** On a Go string and a Go [int], [trimLines] panics exactly when the count
    is negative: the lower bound [len(lines)-n] of the slice expression is
    then above [len(lines)], or wraps around to a negative number. *)
Theorem trimLines_panics_iff_negative (s : string) (n : Z) :
  slen s < int_max -> is_int n -> (trimLines s n = None <-> n < 0).
Proof.
  intros Hs Hn. split.
  - intros Hnone. destruct (Z_lt_le_dec n 0) as [Hneg|Hpos]; [exact Hneg|].
    rewrite trimLines_nonneg in Hnone by assumption. discriminate Hnone.
  - intros Hneg. unfold trimLines.
    pose proof (llen_Split_bound s Hs) as Hlen.
    replace (llen (Split s) >? n) with true by (symmetry; apply Z.gtb_lt; lia).
    destruct (Z_le_gt_dec (llen (Split s) - n) int_max) as [Hfit|Hover].
    + rewrite wrap_int_id by (unfold is_int, int_min, int_max in *; lia).
      replace (llen (Split s) - n <=? llen (Split s)) with false
        by (symmetry; apply Z.leb_gt; lia).
      now rewrite andb_false_r.
    + pose proof (wrap_int_above (llen (Split s) - n)) as Hw.
      unfold is_int, int_min, int_max in *.
      replace (0 <=? wrap_int (llen (Split s) - n)) with false
        by (symmetry; apply Z.leb_gt; apply Hw; lia).
      reflexivity.
Qed.

Lemma trimLines_panics_iff_negative_witness :
  slen "a" < int_max /\ is_int int_min /\
  (trimLines "a" int_min = None <-> int_min < 0).
Proof.
  assert (Hs : slen "a" < int_max) by (vm_compute; reflexivity).
  assert (Hn : is_int int_min) by (unfold is_int, int_min, int_max; lia).
  split; [exact Hs|]. split; [exact Hn|].
  exact (trimLines_panics_iff_negative "a" int_min Hs Hn).
Defined.

(** [trimLines] returns its input unchanged when the input has no more than
    [n] lines. *)
Theorem trimLines_short_input (s : string) (n : Z) :
  llen (Split s) <= n -> trimLines s n = Some s.
Proof.
  intros Hn. unfold trimLines.
  replace (llen (Split s) >? n) with false
    by (symmetry; rewrite Z.gtb_ltb; apply Z.ltb_ge; lia).
  now rewrite Join_Split.
Qed.

Lemma trimLines_short_input_witness :
  let s := "a" ++ nl ++ "b" in
  llen (Split s) <= 2 /\ trimLines s 2 = Some s.
Proof.
  assert (H : llen (Split ("a" ++ nl ++ "b")) <= 2) by (vm_compute; discriminate).
  split; [exact H|].
  exact (trimLines_short_input ("a" ++ nl ++ "b") 2 H).
Defined.

(** Trimming to [n] lines and then to [k] lines is trimming to the smaller
    of the two counts. *)
Theorem trimLines_twice (s : string) (n k : Z) :
  slen s < int_max -> 0 <= n -> 0 <= k ->
  exists t, trimLines s n = Some t /\ trimLines t k = trimLines s (Z.min n k).
Proof.
  intros Hs Hn Hk. eexists. split; [apply trimLines_nonneg; assumption|].
  pose proof (slen_Join_lastn s (Z.to_nat n)) as Hlen.
  rewrite !trimLines_nonneg by lia. f_equal.
  destruct (Z.eq_dec n 0) as [->|Hpos].
  - rewrite Z.min_l by lia. simpl Z.to_nat. rewrite !lastn_0.
    simpl. unfold lastn. simpl. destruct (Z.to_nat k); reflexivity.
  - rewrite trimLines_lines by lia. rewrite lastn_lastn.
    do 2 f_equal. rewrite Z2Nat.inj_min. reflexivity.
Qed.

Lemma trimLines_twice_witness :
  let s := "a" ++ nl ++ "b" ++ nl ++ "c" ++ nl ++ "d" in
  slen s < int_max /\ 0 <= 3 /\ 0 <= 2 /\
  exists t, trimLines s 3 = Some t /\ trimLines t 2 = trimLines s (Z.min 3 2).
Proof.
  assert (Hs : slen ("a" ++ nl ++ "b" ++ nl ++ "c" ++ nl ++ "d") < int_max)
    by (vm_compute; reflexivity).
  split; [exact Hs|]. split; [lia|]. split; [lia|].
  exact (trimLines_twice _ 3 2 Hs ltac:(lia) ltac:(lia)).
Defined.

(** What [trimLines] returns is a suffix of its input: it drops bytes at the
    front and changes none. *)
Theorem trimLines_suffix (s : string) (n : Z) (t : string) :
  trimLines s n = Some t -> exists lead, s = lead ++ t.
Proof.
  unfold trimLines. intros H.
  assert (Hskip : forall k, exists lead, s = lead ++ Join (skipn k (Split s)) nl).
  { intros k. destruct (Join_app_suffix (firstn k (Split s)) (skipn k (Split s))) as [lead Hl].
    rewrite firstn_skipn, Join_Split in Hl. eauto. }
  destruct (llen (Split s) >? n).
  - destruct ((0 <=? _) && _); [|discriminate].
    injection H as <-. apply Hskip.
  - injection H as <-. rewrite Join_Split. now exists "".
Qed.

Lemma trimLines_suffix_witness :
  trimLines ("a" ++ nl ++ "b") 1 = Some "b" /\
  exists lead, "a" ++ nl ++ "b" = lead ++ "b".
Proof.
  assert (H : trimLines ("a" ++ nl ++ "b") 1 = Some "b") by (vm_compute; reflexivity).
  split; [exact H|].
  exact (trimLines_suffix _ 1 "b" H).
Defined.

(** [firstLine s] is a prefix of [s] without a newline, and what follows it
    in [s] is nothing or starts with the newline it stopped at. *)
Theorem firstLine_prefix (s : string) :
  exists rest,
    s = firstLine s ++ rest /\
    no_newline (firstLine s) = true /\
    (rest = "" \/ exists after, rest = nl ++ after).
Proof.
  induction s as [|c s (rest & Hs & Hno & Hrest)].
  - exists "". repeat split. now left.
  - rewrite firstLine_cons. destruct (Ascii.eqb c newline) eqn:Hc.
    + apply Ascii.eqb_eq in Hc. subst c. exists (nl ++ s).
      repeat split. right. now exists s.
    + exists rest. split; [simpl; now rewrite <- Hs|].
      split; [simpl; now rewrite Hc, Hno | exact Hrest].
Qed.

(** [firstLine] returns a line that is followed by a newline, whatever comes
    after the newline, and returns a string without newline as it is (the
    empty string included). *)
Theorem firstLine_of_line (a b : string) :
  no_newline a = true ->
  firstLine (a ++ nl ++ b) = a /\ firstLine a = a.
Proof.
  induction a as [|c a IH]; intros Hno.
  - split; reflexivity.
  - simpl in Hno. apply andb_true_iff in Hno as [Hc Ha].
    apply negb_true_iff in Hc. destruct (IH Ha) as [IH1 IH2].
    split.
    + change (String c a ++ nl ++ b) with (String c (a ++ nl ++ b)).
      now rewrite firstLine_cons, Hc, IH1.
    + now rewrite firstLine_cons, Hc, IH2.
Qed.

Lemma firstLine_of_line_witness :
  no_newline "active (running)" = true /\
  firstLine ("active (running)" ++ nl ++ "since Mon") = "active (running)" /\
  firstLine "active (running)" = "active (running)".
Proof.
  split; [reflexivity|].
  exact (firstLine_of_line "active (running)" "since Mon" eq_refl).
Defined.

(** ** [HasSuffix] *)

Lemma substring_whole (s : string) : substring 0 (String.length s) s = s.
Proof. induction s as [|c s IH]; simpl; [reflexivity | now rewrite IH]. Qed.

Lemma substring_skip (p r : string) (m : nat) :
  substring (String.length p) m (p ++ r) = substring 0 m r.
Proof. induction p as [|c p IH]; simpl; [reflexivity | exact IH]. Qed.

Lemma take_substring (s : string) (i : nat) :
  (i <= String.length s)%nat ->
  s = take i s ++ substring i (String.length s - i) s.
Proof.
  revert s. induction i as [|i IH]; intros s Hi.
  - rewrite Nat.sub_0_r, substring_whole. destruct s; reflexivity.
  - destruct s as [|c s]; simpl in Hi; [lia|].
    simpl. f_equal. apply IH. lia.
Qed.

Lemma HasSuffix_spec (s suffix : string) :
  HasSuffix s suffix = true <-> exists lead, s = lead ++ suffix.
Proof.
  unfold HasSuffix. split.
  - intros H. apply andb_true_iff in H as [Hk Heq].
    apply Nat.leb_le in Hk. apply String.eqb_eq in Heq.
    exists (take (String.length s - String.length suffix) s).
    pose proof (take_substring s (String.length s - String.length suffix)
                  ltac:(lia)) as Hsplit.
    replace (String.length s - (String.length s - String.length suffix))%nat
      with (String.length suffix) in Hsplit by lia.
    now rewrite Heq in Hsplit.
  - intros [lead ->]. rewrite length_append. apply andb_true_iff. split.
    + apply Nat.leb_le. lia.
    + apply String.eqb_eq.
      replace (String.length lead + String.length suffix - String.length suffix)%nat
        with (String.length lead) by lia.
      rewrite substring_skip. apply substring_whole.
Qed.

(** * Further properties of the update step *)

Section UpdateProperties.
Context {TK : Toolkit}.

Lemma updateTail_runs (m : model TK) (msg : Msg ExtMsg) :
  runsOf (snd (updateTail m msg [])) = [] /\
  runsOf (snd (updateTail m msg [CmdTickAfter 1])) = [].
Proof.
  unfold updateTail. destruct (loading m).
  - destruct (spin_Update (spin m) msg) as [sp c]. simpl.
    destruct (list_Update (mlist m) msg) as [l c']. split; reflexivity.
  - destruct (list_Update (mlist m) msg) as [l c']. split; reflexivity.
Qed.

Lemma dispatchTag_known (k : string) (it : unitItem) (tag : string) :
  dispatchTag k it = Some tag -> isKnownTag tag = true.
Proof.
  unfold dispatchTag.
  destruct (String.eqb k "enter"); [intros [= <-]; reflexivity|].
  destruct (String.eqb k "r"); [intros [= <-]; reflexivity|].
  destruct (String.eqb k " ").
  { destruct (HasSuffix (title it) ".timer"); intros [= <-]; reflexivity. }
  destruct (String.eqb k "l"); [intros [= <-]; reflexivity | discriminate].
Qed.

Lemma operationKey_tag (k : string) (it : unitItem) :
  In k operationKeys -> exists tag, dispatchTag k it = Some tag.
Proof.
  simpl. intros [<-|[<-|[<-|[<-|[]]]]]; unfold dispatchTag; simpl; eauto.
Qed.

(** The three ways [Update] treats a key. *)
Lemma Update_key_cases (m : model TK) (k : string) (w : World) :
  (In k ["q"; "ctrl+c"] /\
   Update m (KeyMsg k) w =
     Returns (m, CmdQuit)
       {| next_ctx := next_ctx w;
          cancel_calls := (cancel_calls w ++ storedCancel m)%list |}) \/
  (In k operationKeys /\
   match list_SelectedItem (mlist m) with
   | Some it => exists tag, dispatchTag k it = Some tag /\
                            Update m (KeyMsg k) w = asyncRun m tag (title it) w
   | None => exists reason, Update m (KeyMsg k) w = Panics reason
   end) \/
  (isActionKey k = false /\
   Update m (KeyMsg k) w = Returns (updateTail m (KeyMsg k) []) w).
Proof.
  destruct (isActionKey k) eqn:Hact.
  - unfold isActionKey, actionKeys in Hact. simpl in Hact.
    repeat (apply orb_true_iff in Hact; destruct Hact as [Hact|Hact]);
      try discriminate Hact; apply String.eqb_eq in Hact; subst k.
    + left. split; [simpl; auto|].
      unfold Update, bind, cancelIfSet, storedCancel, invoke, ret. simpl.
      destruct (cancelFunc m); [reflexivity|].
      destruct w; simpl. now rewrite app_nil_r.
    + left. split; [simpl; auto|].
      unfold Update, bind, cancelIfSet, storedCancel, invoke, ret. simpl.
      destruct (cancelFunc m); [reflexivity|].
      destruct w; simpl. now rewrite app_nil_r.
    + right; left. split; [simpl; auto|].
      destruct (list_SelectedItem (mlist m)) as [it|] eqn:Hsel.
      * exists "status". split; [reflexivity|].
        now rewrite (Update_dispatch m "enter" it "status" Hsel eq_refl).
      * apply Update_dispatch_no_selection; simpl; auto.
    + right; left. split; [simpl; auto|].
      destruct (list_SelectedItem (mlist m)) as [it|] eqn:Hsel.
      * exists "start". split; [reflexivity|].
        now rewrite (Update_dispatch m "r" it "start" Hsel eq_refl).
      * apply Update_dispatch_no_selection; simpl; auto.
    + right; left. split; [simpl; auto|].
      destruct (list_SelectedItem (mlist m)) as [it|] eqn:Hsel.
      * eexists. split; [reflexivity|].
        now rewrite (Update_dispatch m " " it _ Hsel eq_refl).
      * apply Update_dispatch_no_selection; simpl; auto.
    + right; left. split; [simpl; auto|].
      destruct (list_SelectedItem (mlist m)) as [it|] eqn:Hsel.
      * exists "logs". split; [reflexivity|].
        now rewrite (Update_dispatch m "l" it "logs" Hsel eq_refl).
      * apply Update_dispatch_no_selection; simpl; auto.
  - right; right. split; [reflexivity|].
    unfold isActionKey, actionKeys in Hact. simpl in Hact.
    repeat (apply orb_false_iff in Hact; destruct Hact as [? Hact]).
    unfold Update.
    repeat match goal with H : String.eqb k _ = false |- _ => rewrite H; clear H end.
    reflexivity.
Qed.

Lemma Update_tick (m : model TK) (w : World) :
  Update m TickMsg w =
  Returns (updateTail (set_spin m (fst (spin_Update (spin m) TickMsg))) TickMsg
             [CmdTickAfter 1]) w.
Proof. unfold Update. destruct (spin_Update (spin m) TickMsg). reflexivity. Qed.

(** The quit keys return the quit command and the model as it is, in every
    state and whether or not an item is selected; the stored cancel function,
    if there is one, is invoked once. *)
Theorem quit_keys_cancel_and_quit (m : model TK) (k : string) (w : World) :
  In k ["q"; "ctrl+c"] ->
  Update m (KeyMsg k) w =
    Returns (m, CmdQuit)
      {| next_ctx := next_ctx w;
         cancel_calls := (cancel_calls w ++ storedCancel m)%list |}.
Proof.
  intros Hk.
  destruct (Update_key_cases m k w) as [[_ H]|[[Hop _]|[Hact _]]]; [exact H| |].
  - simpl in Hk, Hop.
    destruct Hk as [<-|[<-|[]]]; destruct Hop as [H|[H|[H|[H|[]]]]]; discriminate H.
  - simpl in Hk. destruct Hk as [<-|[<-|[]]]; discriminate Hact.
Qed.

Lemma Join_app (front back : list string) :
  front <> [] -> back <> [] ->
  Join (front ++ back) nl = Join front nl ++ nl ++ Join back nl.
Proof.
  induction front as [|e front IH]; [congruence|]. intros _ Hback.
  change ((e :: front) ++ back)%list with (e :: (front ++ back))%list.
  rewrite Join_cons by (destruct front; [assumption | discriminate]).
  destruct front as [|e' front].
  - reflexivity.
  - rewrite IH by (assumption || discriminate).
    rewrite (Join_cons e (e' :: front)) by discriminate.
    now rewrite !append_assoc.
Qed.

Lemma CountNewlines_Join (segs : list string) :
  segs <> [] -> Forall (fun seg => no_newline seg = true) segs ->
  S (CountNewlines (Join segs nl)) = List.length segs.
Proof.
  intros Hne Hall. rewrite <- Split_length_count. now rewrite Split_Join.
Qed.

(** The last [n] segments, joined, are the window of [n] lines of the text. *)
Lemma lastWindow_lastn (n : nat) (s : string) :
  (1 <= n)%nat -> lastWindow n s (Join (lastn n (Split s)) nl).
Proof.
  intros Hn. unfold lastWindow.
  pose proof (Split_length_pos s) as Hpos.
  destruct (Nat.le_gt_cases (List.length (Split s)) n) as [Hshort|Hlong].
  - exists "". rewrite lastn_all, Join_Split by assumption.
    split; [reflexivity|]. split; [|now left].
    pose proof (Split_length_count s). lia.
  - destruct (lastn_suffix n (Split s)) as (front & Hsplit & Hfront).
    assert (Hback : List.length (lastn n (Split s)) = n)
      by (rewrite lastn_length; lia).
    assert (Hne_front : front <> []) by (intros ->; simpl in Hfront; lia).
    assert (Hne_back : lastn n (Split s) <> []) by (intros Heq; rewrite Heq in Hback; simpl in Hback; lia).
    assert (Hcount : S (CountNewlines (Join (lastn n (Split s)) nl)) = n).
    { rewrite CountNewlines_Join; [exact Hback | exact Hne_back |].
      apply Forall_skipn, Split_no_newline. }
    exists (Join front nl ++ nl). split; [|split; [lia|]].
    + rewrite <- (Join_Split s) at 1. rewrite Hsplit at 1.
      rewrite Join_app by assumption. now rewrite append_assoc.
    + right. split; [lia|]. now exists (Join front nl).
Qed.

(** C6: the key [l] on a selected unit starts the operation tagged "logs"
    whose closure, run on any host, runs exactly
    [journalctl -u <unit> -n 50 --no-pager] and nothing else; and the frame
    shows, of a stored output that is not empty, the last 20 lines and no
    more, however many lines it has: of the output of the logs command as of
    any other. *)
Theorem logs_dispatch_and_window :
  (forall (m : model TK) (w : World) (it : unitItem),
     list_SelectedItem (mlist m) = Some it ->
     (exists m' w',
        Update m (KeyMsg "l") w =
          Returns (m', CmdBatch [CmdFirstTick; CmdRun (next_ctx w) "logs" (title it)]) w') /\
     (forall h, commandLine h "logs" (title it) = Some (logsPath (title it))) /\
     (forall h,
        performed h (CmdBatch [CmdFirstTick; CmdRun (next_ctx w) "logs" (title it)]) =
        [TickMsg;
         match cmd_Run h (next_ctx w) (logsPath (title it)) with
         | (Some e, _) => ErrMsg (Some e)
         | (None, out) => OutputMsg "logs" out
         end])) /\
  (forall (m : model TK),
     slen (lastOutput m) < int_max ->
     lastOutput m <> "" ->
     exists shown,
       View m = Some (list_View (mlist m) ++ statusBlock m ++
                      (nl ++ nl ++ render_faint shown) ++ helpLine) /\
       shown = Join (lastn 20 (Split (lastOutput m))) nl /\
       Split shown = lastn 20 (Split (lastOutput m)) /\
       (List.length (Split shown) <= 20)%nat /\
       lastWindow 20 (lastOutput m) shown) /\
  (forall (h : Host) (m : model TK) (w : World) (it : unitItem) (out : string),
     list_SelectedItem (mlist m) = Some it ->
     cmd_Run h (next_ctx w) (logsPath (title it)) = (None, out) ->
     out <> "" ->
     slen out < int_max ->
     exists m' w' shown,
       run m [KeyMsg "l"; runCommand h (next_ctx w) "logs" (title it)] w =
         Returns m' w' /\
       lastOutput m' = out /\
       shown = Join (lastn 20 (Split out)) nl /\
       lastWindow 20 out shown /\
       View m' = Some (list_View (mlist m') ++ statusBlock m' ++
                       (nl ++ nl ++ render_faint shown) ++ helpLine)).
Proof.
  assert (Hwindow : forall m : model TK,
     slen (lastOutput m) < int_max ->
     lastOutput m <> "" ->
     exists shown,
       View m = Some (list_View (mlist m) ++ statusBlock m ++
                      (nl ++ nl ++ render_faint shown) ++ helpLine) /\
       shown = Join (lastn 20 (Split (lastOutput m))) nl /\
       Split shown = lastn 20 (Split (lastOutput m)) /\
       (List.length (Split shown) <= 20)%nat /\
       lastWindow 20 (lastOutput m) shown).
  { intros m Hlen Hne.
    exists (Join (lastn 20 (Split (lastOutput m))) nl).
    assert (Hlines : Split (Join (lastn 20 (Split (lastOutput m))) nl) =
                     lastn 20 (Split (lastOutput m))).
    { apply (trimLines_lines (lastOutput m) 20 Hlen). lia. }
    split; [|split; [reflexivity|split; [exact Hlines|split]]].
    - unfold View, outputBlock.
      apply String.eqb_neq in Hne. rewrite Hne.
      rewrite (trimLines_nonneg (lastOutput m) 20 Hlen) by lia.
      reflexivity.
    - rewrite Hlines, lastn_length. lia.
    - apply lastWindow_lastn. lia. }
  split; [|split; [exact Hwindow|]].
  - intros m w it Hsel. split; [|split].
    + rewrite (Update_dispatch m "l" it "logs" Hsel eq_refl), asyncRun_returns.
      eauto.
    + reflexivity.
    + intros h. reflexivity.
  - intros h m w it out Hsel Hrun Hne Hlen.
    rewrite run_cons, (Update_dispatch m "l" it "logs" Hsel eq_refl), asyncRun_returns.
    cbn [fst]. rewrite run_one.
    assert (Hmsg : runCommand (TK := TK) h (next_ctx w) "logs" (title it) =
                   OutputMsg "logs" out).
    { unfold runCommand. change (commandLine h "logs" (title it))
        with (Some (logsPath (title it))). cbv beta iota. now rewrite Hrun. }
    rewrite Hmsg.
    match goal with
    | |- context [Update ?m1 (OutputMsg "logs" out) ?w1] =>
        destruct (Update_output m1 "logs" out w1) as (m' & c & H & _ & _ & Ho & _)
    end.
    rewrite H. cbn [fst].
    assert (Hlen' : slen (lastOutput m') < int_max) by now rewrite Ho.
    assert (Hne' : lastOutput m' <> "") by now rewrite Ho.
    destruct (Hwindow m' Hlen' Hne') as (shown & Hview & Hshown & _ & _ & Hwin).
    rewrite Ho in Hshown, Hwin.
    exists m'. eexists. exists shown. auto 10.
Qed.

(** C7 (as amended): in every state, loading or not, a key other than q,
    ctrl+c, enter, r, space and l (the arrow keys, the filter key and the
    other keys of the list) is handed to the list and leaves the loading
    flag and the status line as they were, and no cancel function is invoked.
    The six keys are taken by [Update] before the list: the list of the
    returned model is the one it was, and enter, r, space and l on a selected
    item set the loading flag and the status line. *)
Theorem navigation_keeps_loading_status (m : model TK) (k : string) (w : World) :
  (isActionKey k = false ->
   exists m' c,
     Update m (KeyMsg k) w = Returns (m', c) w /\
     loading m' = loading m /\
     status m' = status m /\
     mlist m' = fst (list_Update (mlist m) (KeyMsg k))) /\
  (isActionKey k = true ->
   forall m' c w', Update m (KeyMsg k) w = Returns (m', c) w' -> mlist m' = mlist m) /\
  (In k operationKeys ->
   forall it, list_SelectedItem (mlist m) = Some it ->
   exists m' c w' tag,
     Update m (KeyMsg k) w = Returns (m', c) w' /\
     loading m' = true /\
     status m' = tag ++ " " ++ title it).
Proof.
  split; [|split].
  - intros Hact.
    destruct (Update_key_cases m k w) as [[Hq _]|[[Hop _]|[_ Hnav]]].
    + simpl in Hq. destruct Hq as [<-|[<-|[]]]; discriminate Hact.
    + simpl in Hop. destruct Hop as [<-|[<-|[<-|[<-|[]]]]]; discriminate Hact.
    + pose proof (updateTail_frame m (KeyMsg k) []) as Hf. simpl in Hf.
      destruct Hf as (Hs & Hl & _).
      assert (Hlist : mlist (fst (updateTail m (KeyMsg k) [])) =
                      fst (list_Update (mlist m) (KeyMsg k))).
      { unfold updateTail. destruct (loading m).
        - destruct (spin_Update (spin m) (KeyMsg k)). simpl.
          destruct (list_Update (mlist m) (KeyMsg k)). reflexivity.
        - destruct (list_Update (mlist m) (KeyMsg k)). reflexivity. }
      rewrite Hnav. destruct (updateTail m (KeyMsg k) []) as [m' c]. simpl in *.
      exists m', c. auto.
  - intros Hact m' c w' Hu.
    destruct (Update_key_cases m k w) as [[_ Hq]|[[_ Hcase]|[Hnav _]]].
    + rewrite Hq in Hu. now injection Hu as <- _ _.
    + destruct (list_SelectedItem (mlist m)) as [it|].
      * destruct Hcase as (tag & _ & Hrun).
        rewrite Hrun, asyncRun_returns in Hu. now injection Hu as <- _ _.
      * destruct Hcase as [reason Hp]. rewrite Hp in Hu. discriminate Hu.
    + rewrite Hnav in Hact. discriminate Hact.
  - intros Hop it Hsel.
    destruct (operationKey_tag k it Hop) as [tag Htag].
    rewrite (Update_dispatch m k it tag Hsel Htag), asyncRun_returns.
    do 3 eexists. exists tag. split; [reflexivity|]. split; reflexivity.
Qed.

(** An operation key on a selected item puts the state in the busy form: the
    loading flag is set, the status line is "<tag> <unit>" (never empty), a
    fresh context is allocated and its cancel function stored.  The operation
    that was pending is abandoned without invoking its cancel function, and
    the list never sees the key. *)
Theorem dispatch_enters_busy (m : model TK) (k : string) (it : unitItem) (w : World) :
  list_SelectedItem (mlist m) = Some it ->
  In k operationKeys ->
  exists tag m' w',
    Update m (KeyMsg k) w =
      Returns (m', CmdBatch [CmdFirstTick; CmdRun (next_ctx w) tag (title it)]) w' /\
    isKnownTag tag = true /\
    loading m' = true /\
    status m' = tag ++ " " ++ title it /\
    status m' <> "" /\
    cancelFunc m' = Some (next_ctx w) /\
    next_ctx w' = S (next_ctx w) /\
    cancel_calls w' = cancel_calls w /\
    mlist m' = mlist m /\ spin m' = spin m /\
    lastOutput m' = lastOutput m /\ err m' = err m.
Proof.
  intros Hsel Hk.
  destruct (operationKey_tag k it Hk) as [tag Htag].
  exists tag. do 2 eexists.
  rewrite (Update_dispatch m k it tag Hsel Htag), asyncRun_returns.
  split; [reflexivity|].
  split; [exact (dispatchTag_known k it tag Htag)|].
  cbn [loading status cancelFunc next_ctx cancel_calls mlist spin lastOutput err].
  repeat split.
  intros Hempty. apply (f_equal String.length) in Hempty.
  rewrite !length_append in Hempty. simpl in Hempty. lia.
Qed.

(** [Update] panics in two situations and no other: an operation key while
    the list has no selected item (the type assertion on the nil item), and
    an [errMsg] whose error is nil ([Error()] on the nil interface).  The
    command closure never builds the second one. *)
Theorem Update_panics_iff (m : model TK) (msg : Msg ExtMsg) (w : World) :
  ((exists reason, Update m msg w = Panics reason) <->
   (exists k, msg = KeyMsg k /\ In k operationKeys /\
              list_SelectedItem (mlist m) = None) \/
   msg = ErrMsg None) /\
  (forall (h : Host) (ctx : nat) (tag u : string),
     runCommand (TK := TK) h ctx tag u <> ErrMsg None).
Proof.
  split; [split|].
  - intros [reason H]. destruct msg as [k|tag out|[e|]| |x].
    + left. exists k. split; [reflexivity|].
      destruct (Update_key_cases m k w) as [[_ Hq]|[[Hop Hcase]|[_ Hnav]]].
      * rewrite Hq in H. discriminate H.
      * split; [exact Hop|].
        destruct (list_SelectedItem (mlist m)) as [it|]; [|reflexivity].
        destruct Hcase as (tag & _ & Hrun). rewrite Hrun, asyncRun_returns in H.
        discriminate H.
      * rewrite Hnav in H. discriminate H.
    + destruct (Update_output m tag out w) as (m' & c & Hu & _).
      rewrite Hu in H. discriminate H.
    + destruct (Update_err m e w) as (m' & c & Hu & _).
      rewrite Hu in H. discriminate H.
    + now right.
    + rewrite Update_tick in H. discriminate H.
    + discriminate H.
  - intros [(k & -> & Hk & Hsel)| ->].
    + now apply Update_dispatch_no_selection.
    + eexists. reflexivity.
  - intros h ctx tag u. unfold runCommand.
    destruct (commandLine h tag u) as [argv|]; [|discriminate].
    destruct (cmd_Run h ctx argv) as [[e|] out]; discriminate.
Qed.

(** Whatever [Update] returns starts at most one operation, and only on an
    operation key: the operation's tag is one the command closure has a case
    for, its unit is the title of the selected item, and its context is the
    fresh one whose cancel function the returned state stores. *)
Theorem Update_starts_known_operations
    (m m' : model TK) (msg : Msg ExtMsg) (w w' : World) (c : Cmd ExtCmd) :
  Update m msg w = Returns (m', c) w' ->
  runsOf c = [] \/
  exists k it tag,
    msg = KeyMsg k /\ In k operationKeys /\
    list_SelectedItem (mlist m) = Some it /\
    runsOf c = [(next_ctx w, tag, title it)] /\
    isKnownTag tag = true /\
    cancelFunc m' = Some (next_ctx w).
Proof.
  intros H. destruct msg as [k|tag out|[e|]| |x].
  - destruct (Update_key_cases m k w) as [[_ Hq]|[[Hop Hcase]|[_ Hnav]]].
    + rewrite Hq in H. injection H as <- <- <-. now left.
    + right. destruct (list_SelectedItem (mlist m)) as [it|] eqn:Hsel.
      * destruct Hcase as (tag & Htag & Hrun).
        rewrite Hrun, asyncRun_returns in H. injection H as <- <- <-.
        exists k, it, tag. repeat split; try assumption.
        exact (dispatchTag_known k it tag Htag).
      * destruct Hcase as [reason Hp]. rewrite Hp in H. discriminate H.
    + rewrite Hnav in H. injection H as Hm _. left.
      apply (f_equal snd) in Hm. cbn [snd] in Hm. rewrite <- Hm.
      apply (proj1 (updateTail_runs _ _)).
  - left. unfold Update, bind, cancelIfSet, invoke, ret in H.
    destruct (cancelFunc _); injection H as Hm _;
      apply (f_equal snd) in Hm; cbn [snd] in Hm; rewrite <- Hm;
      apply (proj1 (updateTail_runs _ _)).
  - left. unfold Update, bind, cancelIfSet, invoke, ret in H.
    destruct (cancelFunc _); injection H as Hm _;
      apply (f_equal snd) in Hm; cbn [snd] in Hm; rewrite <- Hm;
      apply (proj1 (updateTail_runs _ _)).
  - discriminate H.
  - left. rewrite Update_tick in H. injection H as Hm _.
    apply (f_equal snd) in Hm. cbn [snd] in Hm. rewrite <- Hm.
    apply (proj2 (updateTail_runs _ _)).
  - left. unfold Update, ret in H. injection H as Hm _.
    apply (f_equal snd) in Hm. cbn [snd] in Hm. rewrite <- Hm.
    apply (proj1 (updateTail_runs _ _)).
Qed.

(** A tick arms the next tick, one second later, in every state, loading or
    not: once started, the program's ticks never stop.  The tick message is
    passed to the spinner's [Update] once, and a second time when the
    loading flag is set (what the spinner makes of a message that is not its
    own tick is the library's matter); nothing else in the state changes and
    no cancel function is invoked. *)
Theorem tick_rearms_itself (m : model TK) (w : World) :
  exists m' rest,
    Update m TickMsg w = Returns (m', CmdBatch (CmdTickAfter 1 :: rest)) w /\
    spin m' = (let once := fst (spin_Update (spin m) TickMsg) in
               if loading m then fst (spin_Update once TickMsg) else once) /\
    status m' = status m /\ loading m' = loading m /\
    lastOutput m' = lastOutput m /\ err m' = err m /\
    cancelFunc m' = cancelFunc m.
Proof.
  rewrite Update_tick. unfold updateTail. cbn [loading set_spin spin mlist].
  destruct (loading m) eqn:Hl.
  - destruct (spin_Update (fst (spin_Update (spin m) TickMsg)) TickMsg) as [sp c] eqn:Hsp.
    cbn [mlist set_spin].
    destruct (list_Update (mlist m) TickMsg) as [l c'].
    do 2 eexists. split; [reflexivity|]. simpl. auto 10.
  - cbn [mlist set_spin].
    destruct (list_Update (mlist m) TickMsg) as [l c'].
    do 2 eexists. split; [reflexivity|]. simpl. auto 10.
Qed.

(** When the command of an operation fails, what it printed is dropped: the
    state gets the error and the status line "Error: <error>", the loading
    flag is cleared, and the stored output, and so the output block of the
    frame, stay those of the previous operation. *)
Theorem failed_command_keeps_previous_output
    (h : Host) (m : model TK) (w : World) (ctx : nat)
    (tag u e out : string) (argv : list string) :
  commandLine h tag u = Some argv ->
  cmd_Run h ctx argv = (Some e, out) ->
  exists m' c w',
    Update m (runCommand h ctx tag u) w = Returns (m', c) w' /\
    status m' = "Error: " ++ e /\
    err m' = Some e /\
    loading m' = false /\
    lastOutput m' = lastOutput m /\
    outputBlock m' = outputBlock m.
Proof.
  intros Hcmd Hrun. unfold runCommand. rewrite Hcmd, Hrun.
  destruct (Update_err m e w) as (m' & c & H & Hl & Hs & Ho & He & _).
  exists m', c. eexists. split; [exact H|].
  repeat split; try assumption.
  unfold outputBlock. now rewrite Ho.
Qed.

(** The command closure has a command line exactly for the five tags
    status, start, toggle, enable and logs; for any other tag it returns the
    error "unknown action" on every host, that is without running anything. *)
Theorem unknown_tag_runs_nothing (h : Host) (ctx : nat) (tag u : string) :
  (commandLine h tag u = None <-> isKnownTag tag = false) /\
  (isKnownTag tag = false ->
   forall h' : Host, runCommand (TK := TK) h' ctx tag u = ErrMsg (Some "unknown action")).
Proof.
  assert (Hnone : forall h0, isKnownTag tag = false -> commandLine h0 tag u = None).
  { intros h0. unfold isKnownTag, knownTags, commandLine. simpl. intros Hk.
    repeat (apply orb_false_iff in Hk; destruct Hk as [? Hk]).
    repeat match goal with H : String.eqb tag _ = false |- _ => rewrite H; clear H end.
    reflexivity. }
  split; [split|].
  - intros Hc. destruct (isKnownTag tag) eqn:Hk; [|reflexivity].
    unfold isKnownTag, knownTags in Hk. simpl in Hk. unfold commandLine in Hc.
    destruct (String.eqb tag "status"); [discriminate Hc|].
    destruct (String.eqb tag "start"); [discriminate Hc|].
    destruct (String.eqb tag "toggle").
    { destruct (String.eqb (TrimSpace _) "enabled"); discriminate Hc. }
    destruct (String.eqb tag "enable"); [discriminate Hc|].
    destruct (String.eqb tag "logs"); [discriminate Hc | discriminate Hk].
  - apply Hnone.
  - intros Hk h'. unfold runCommand. now rewrite (Hnone h' Hk).
Qed.

(** Only the toggle operation looks at the host before its command runs: for
    every other tag the command line is the same on all hosts, and it names
    the unit. *)
Theorem probe_only_for_toggle (h1 h2 : Host) (tag u : string) :
  tag <> "toggle" ->
  commandLine h1 tag u = commandLine h2 tag u /\
  (forall argv, commandLine h1 tag u = Some argv -> In u argv).
Proof.
  intros Hne. apply String.eqb_neq in Hne. unfold commandLine. rewrite Hne.
  split; [reflexivity|]. intros argv.
  destruct (String.eqb tag "status"); [intros [= <-]; simpl; auto|].
  destruct (String.eqb tag "start"); [intros [= <-]; simpl; auto|].
  destruct (String.eqb tag "enable"); [intros [= <-]; simpl; auto|].
  destruct (String.eqb tag "logs"); [intros [= <-]; simpl; auto | discriminate].
Qed.

(** When the probe prints nothing, as when it fails (its error is dropped),
    or only ASCII white space, the toggle takes the enable path. *)
Theorem toggle_blank_probe_enables (h : Host) (u : string) :
  Forall (fun b => asciiSpace b = true) (bytes_of (cmd_Output h (probeLine u))) ->
  commandLine h "toggle" u = Some (enablePath u).
Proof.
  intros Hblank.
  assert (Htrim : TrimSpace (cmd_Output h (probeLine u)) = "").
  { rewrite <- (append_nil_r (cmd_Output h (probeLine u))) at 1.
    change "" with ("" ++ "") at 1.
    apply TrimSpace_padded; [exact Hblank | constructor | reflexivity | reflexivity]. }
  unfold commandLine. simpl. unfold probeLine in Htrim. now rewrite Htrim.
Qed.

(** The space key starts the toggle exactly on the items whose title ends in
    ".timer" (byte for byte, so in lower case); on every other item it
    starts the operation tagged "enable". *)
Theorem space_toggles_exactly_timer_titles (m : model TK) (w : World) (it : unitItem) :
  list_SelectedItem (mlist m) = Some it ->
  exists tag m' w',
    Update m (KeyMsg " ") w =
      Returns (m', CmdBatch [CmdFirstTick; CmdRun (next_ctx w) tag (title it)]) w' /\
    (tag = "toggle" \/ tag = "enable") /\
    (tag = "toggle" <-> exists lead, title it = lead ++ ".timer").
Proof.
  intros Hsel.
  exists (if HasSuffix (title it) ".timer" then "toggle" else "enable").
  do 2 eexists.
  rewrite (Update_dispatch m " " it _ Hsel eq_refl), asyncRun_returns.
  split; [reflexivity|].
  rewrite <- HasSuffix_spec.
  destruct (HasSuffix (title it) ".timer"); split; auto; split; auto; discriminate.
Qed.


(** What one step of [Update] can do to the contexts and to the fields
    that outlive an operation. *)
Lemma Update_step (m m' : model TK) (msg : Msg ExtMsg) (w w' : World) (c : Cmd ExtCmd) :
  Update m msg w = Returns (m', c) w' ->
  (exists more, cancel_calls w' = (cancel_calls w ++ more)%list /\
                incl more (storedCancel m)) /\
  ((cancelFunc m' = cancelFunc m /\ next_ctx w' = next_ctx w /\
    (loading m' = loading m \/ loading m' = false)) \/
   (cancelFunc m' = Some (next_ctx w) /\ next_ctx w' = S (next_ctx w) /\
    isKey msg = true)) /\
  (err m' = err m \/ exists e, err m' = Some e) /\
  (lastOutput m' = lastOutput m \/ isOutput msg = true).
Proof.
  intros H. destruct msg as [k|tag out|[e|]| |x].
  - destruct (Update_key_cases m k w) as [[_ Hq]|[[Hop Hcase]|[_ Hnav]]].
    + rewrite Hq in H. injection H as <- _ <-.
      split; [exists (storedCancel m); split; [reflexivity | apply incl_refl]|].
      split; [left; auto|]. auto.
    + destruct (list_SelectedItem (mlist m)) as [it|].
      * destruct Hcase as (tag & _ & Hrun).
        rewrite Hrun, asyncRun_returns in H. injection H as <- _ <-.
        split; [exists []; split; [simpl; now rewrite app_nil_r | apply incl_nil_l]|].
        split; [right; auto|]. auto.
      * destruct Hcase as [reason Hp]. rewrite Hp in H. discriminate H.
    + rewrite Hnav in H. injection H as Hm <-.
      pose proof (updateTail_frame m (KeyMsg k) []) as Hf. rewrite Hm in Hf.
      simpl in Hf. destruct Hf as (_ & Hl & Ho & He & Hc).
      split; [exists []; split; [now rewrite app_nil_r | apply incl_nil_l]|].
      split; [left; auto|]. auto.
  - destruct (Update_output m tag out w) as (m1 & c1 & Hu & Hl & _ & _ & He & Hc & _).
    rewrite Hu in H. injection H as <- _ <-.
    split; [exists (storedCancel m); split; [reflexivity | apply incl_refl]|].
    split; [left; auto|]. auto.
  - destruct (Update_err m e w) as (m1 & c1 & Hu & Hl & _ & Ho & He & Hc & _).
    rewrite Hu in H. injection H as <- _ <-.
    split; [exists (storedCancel m); split; [reflexivity | apply incl_refl]|].
    split; [left; auto|]. split; [right; eauto | auto].
  - discriminate H.
  - rewrite Update_tick in H. injection H as Hm <-.
    match type of Hm with
    | updateTail ?m1 _ ?cs = _ => pose proof (updateTail_frame m1 TickMsg cs) as Hf
    end.
    rewrite Hm in Hf. simpl in Hf. destruct Hf as (_ & Hl & Ho & He & Hc).
    split; [exists []; split; [now rewrite app_nil_r | apply incl_nil_l]|].
    split; [left; auto|]. auto.
  - unfold Update, ret in H. injection H as Hm <-.
    pose proof (updateTail_frame m (OtherMsg x) []) as Hf. rewrite Hm in Hf.
    simpl in Hf. destruct Hf as (_ & Hl & Ho & He & Hc).
    split; [exists []; split; [now rewrite app_nil_r | apply incl_nil_l]|].
    split; [left; auto|]. auto.
Qed.

Lemma Update_non_key_returns (m : model TK) (msg : Msg ExtMsg) (w : World) :
  isKey msg = false -> isNilError msg = false ->
  exists m' c w', Update m msg w = Returns (m', c) w'.
Proof.
  destruct msg as [k|tag out|[e|]| |x]; try discriminate; intros _ _.
  - destruct (Update_output m tag out w) as (m' & c & H & _). eauto.
  - destruct (Update_err m e w) as (m' & c & H & _). eauto.
  - rewrite Update_tick. destruct (updateTail _ _ _). eauto.
  - unfold Update, ret. destruct (updateTail _ _ _). eauto.
Qed.

(** Over any sequence of messages the loop handles without panicking, the
    contexts stay consistent: no context is ever reused (the next free one
    only grows), cancel calls are only added, and the stored cancel function
    and every invoked one belong to a context that was allocated. *)
Theorem run_keeps_contexts_allocated
    (msgs : list (Msg ExtMsg)) (m m' : model TK) (w w' : World) :
  run m msgs w = Returns m' w' ->
  allocated m w = true ->
  allocated m' w' = true /\
  (next_ctx w <= next_ctx w')%nat /\
  exists more, cancel_calls w' = (cancel_calls w ++ more)%list.
Proof.
  revert m w. induction msgs as [|msg msgs IH]; intros m w Hrun Halloc.
  - injection Hrun as <- <-. split; [exact Halloc|]. split; [lia|].
    exists []. now rewrite app_nil_r.
  - rewrite run_cons in Hrun.
    destruct (Update m msg w) as [[m1 c1] w1|reason] eqn:Hu; [|discriminate Hrun].
    cbn [fst] in Hrun.
    destruct (Update_step m m1 msg w w1 c1 Hu) as ((more & Hcalls & Hincl) & Hctx & _).
    assert (Halloc1 : allocated m1 w1 = true /\ (next_ctx w <= next_ctx w1)%nat).
    { unfold allocated in *. apply andb_true_iff in Halloc as [Hstored Hcalled].
      assert (Hmore : forallb (fun c => (c <? next_ctx w)%nat) more = true).
      { apply forallb_forall. intros c0 Hin. apply Hincl in Hin.
        unfold storedCancel in Hin. destruct (cancelFunc m); [|destruct Hin].
        destruct Hin as [<-|[]]. exact Hstored. }
      destruct Hctx as [(Hc & Hn & _)|(Hc & Hn & _)]; rewrite Hc, Hn, Hcalls.
      - split; [|lia]. apply andb_true_iff. split; [exact Hstored|].
        rewrite forallb_app. now rewrite Hcalled, Hmore.
      - split; [|lia]. apply andb_true_iff. split; [apply Nat.ltb_lt; lia|].
        rewrite forallb_app. apply andb_true_iff.
        split; apply forallb_forall; intros c0 Hin; apply Nat.ltb_lt.
        + rewrite forallb_forall in Hcalled. apply Hcalled, Nat.ltb_lt in Hin. lia.
        + rewrite forallb_forall in Hmore. apply Hmore, Nat.ltb_lt in Hin. lia. }
    destruct Halloc1 as [Halloc1 Hle].
    destruct (IH m1 w1 Hrun Halloc1) as (Ha & Hn & more' & Hc').
    split; [exact Ha|]. split; [lia|].
    exists (more ++ more')%list. now rewrite Hc', Hcalls, app_assoc.
Qed.

(** Nothing releases what an operation left behind: once a cancel function
    is stored, some cancel function stays stored, and once an error is
    recorded, an error stays recorded, whatever messages follow (a later
    success does not clear the error). *)
Theorem run_never_releases
    (msgs : list (Msg ExtMsg)) (m m' : model TK) (w w' : World) :
  run m msgs w = Returns m' w' ->
  (cancelFunc m <> None -> cancelFunc m' <> None) /\
  (err m <> None -> err m' <> None).
Proof.
  revert m w. induction msgs as [|msg msgs IH]; intros m w Hrun.
  - injection Hrun as <- _. auto.
  - rewrite run_cons in Hrun.
    destruct (Update m msg w) as [[m1 c1] w1|reason] eqn:Hu; [|discriminate Hrun].
    cbn [fst] in Hrun.
    destruct (Update_step m m1 msg w w1 c1 Hu) as (_ & Hctx & Herr & _).
    destruct (IH m1 w1 Hrun) as [IHc IHe].
    split; intros Hset.
    + apply IHc. destruct Hctx as [(Hc & _)|(Hc & _)]; rewrite Hc; [exact Hset | discriminate].
    + apply IHe. destruct Herr as [He|[e He]]; rewrite He; [exact Hset | discriminate].
Qed.

(** Messages other than key presses and than an [errMsg] with a nil error
    are always handled (no panic) and start nothing: no context is
    allocated, the stored cancel function stays, and the loading flag cannot
    turn on; and the stored output changes only through a successful result.
    An [errMsg] with a nil error, at any place in the sequence, makes the
    loop panic. *)
Theorem run_without_keys
    (msgs : list (Msg ExtMsg)) (m : model TK) (w : World) :
  forallb (fun msg => negb (isKey msg)) msgs = true ->
  (forallb (fun msg => negb (isNilError msg)) msgs = true ->
   exists m' w',
     run m msgs w = Returns m' w' /\
     next_ctx w' = next_ctx w /\
     cancelFunc m' = cancelFunc m /\
     (loading m = false -> loading m' = false) /\
     (forallb (fun msg => negb (isOutput msg)) msgs = true ->
      lastOutput m' = lastOutput m)) /\
  (forallb (fun msg => negb (isNilError msg)) msgs = false ->
   exists reason, run m msgs w = Panics reason).
Proof.
  revert m w. induction msgs as [|msg msgs IH]; intros m w Hkeys.
  - split; [|discriminate]. intros _. exists m, w. repeat split; auto.
  - simpl in Hkeys. apply andb_true_iff in Hkeys as [Hmsg Hkeys].
    apply negb_true_iff in Hmsg.
    rewrite run_cons. cbn [forallb].
    destruct (isNilError msg) eqn:Hnil.
    + split; [discriminate|]. intros _.
      destruct msg as [k|tag out|[e|]| |x]; try discriminate Hnil.
      eexists. reflexivity.
    + destruct (Update_non_key_returns m msg w Hmsg Hnil) as (m1 & c1 & w1 & Hu).
      rewrite Hu. cbn [fst negb andb].
      destruct (Update_step m m1 msg w w1 c1 Hu) as (_ & Hctx & _ & Hout).
      destruct Hctx as [(Hc & Hn & Hl)|(_ & _ & Hk)]; [|congruence].
      destruct (IH m1 w1 Hkeys) as [IHok IHnil].
      split; [|exact IHnil].
      intros Hnone.
      destruct (IHok Hnone) as (m' & w' & Hrun & Hn' & Hc' & Hl' & Ho').
      exists m', w'. split; [exact Hrun|].
      split; [congruence|]. split; [congruence|]. split.
      * intros Hidle. apply Hl'. destruct Hl as [Hl|Hl]; congruence.
      * intros Houts. apply andb_true_iff in Houts as [Hm Hrest].
        apply negb_true_iff in Hm. rewrite (Ho' Hrest).
        destruct Hout as [Ho|Ho]; congruence.
Qed.

(** [View] returns a frame for every state whose stored output is a Go
    string (the window of 20 lines cannot make [trimLines] panic); the frame
    starts with the list and ends with the help line, and with no stored
    output it is just the list, the status block and the help line. *)
Theorem View_returns_frame (m : model TK) :
  slen (lastOutput m) < int_max ->
  exists body,
    View m = Some (list_View (mlist m) ++ statusBlock m ++ body ++ helpLine) /\
    (lastOutput m = "" -> body = "").
Proof.
  intros Hlen. unfold View, outputBlock.
  rewrite (trimLines_nonneg (lastOutput m) 20 Hlen) by lia.
  destruct (String.eqb (lastOutput m) "") eqn:He.
  - exists "". split; reflexivity.
  - eexists. split; [reflexivity|]. intros Hempty.
    apply String.eqb_neq in He. contradiction.
Qed.


(** The exit status of [main] is 0 exactly when [systemctl] is found and the
    program ends without error; when the program fails to start, [main]
    reports "Error: <error>" on standard output, nothing on standard error,
    and exits with status 1.  The program is started at most once. *)
Theorem main_exit_status (h : Host) :
  (exitCode (main h) = Some 0 <->
   lookPath h "systemctl" = true /\ tea_Start h = None) /\
  (exitCode (main h) = Some 0 \/ exitCode (main h) = Some 1) /\
  (forall e, lookPath h "systemctl" = true -> tea_Start h = Some e ->
     main h = [StartProgram newModel; WriteStdout ("Error: " ++ e ++ nl); Exit 1] /\
     wroteStderr (main h) = []) /\
  (List.length (filter (fun a => match a with StartProgram _ => true | _ => false end)
                  (main h)) <= 1)%nat.
Proof.
  unfold main.
  destruct (lookPath h "systemctl"); destruct (tea_Start h) as [e|]; simpl.
  - split; [split; [discriminate | intros [_ H]; discriminate H]|].
    split; [now right|]. split; [|lia].
    intros e' _ [= <-]. split; reflexivity.
  - split; [split; auto|]. split; [now left|]. split; [|lia].
    intros e' _ H. discriminate H.
  - split; [split; [discriminate | intros [H _]; discriminate H]|].
    split; [now right|]. split; [|lia].
    intros e' H. discriminate H.
  - split; [split; [discriminate | intros [H _]; discriminate H]|].
    split; [now right|]. split; [|lia].
    intros e' H. discriminate H.
Qed.

End UpdateProperties.

(** ** The further properties on concrete inputs *)

Lemma quit_keys_cancel_and_quit_witness :
  In "ctrl+c" ["q"; "ctrl+c"] /\
  Update Plain.busy (KeyMsg "ctrl+c") Plain.world5 =
    Returns (Plain.busy, CmdQuit) {| next_ctx := 5; cancel_calls := [2; 4]%nat |}.
Proof.
  assert (Hk : In "ctrl+c" ["q"; "ctrl+c"]) by (simpl; auto).
  split; [exact Hk|].
  exact (quit_keys_cancel_and_quit (TK := Plain.toolkit) Plain.busy "ctrl+c" Plain.world5 Hk).
Defined.

Lemma dispatch_enters_busy_witness :
  list_SelectedItem (mlist Plain.onService) = Some Plain.serviceItem /\
  In "r" operationKeys /\
  exists tag m' w',
    Update Plain.onService (KeyMsg "r") Plain.world0 =
      Returns (m', CmdBatch [CmdFirstTick; CmdRun 0 tag serviceName]) w' /\
    loading m' = true /\ status m' <> "".
Proof.
  assert (Hk : In "r" operationKeys) by (simpl; auto).
  split; [reflexivity|]. split; [exact Hk|].
  destruct (dispatch_enters_busy (TK := Plain.toolkit) Plain.onService "r"
              Plain.serviceItem Plain.world0 eq_refl Hk)
    as (tag & m' & w' & Hu & _ & Hl & _ & Hs & _).
  exists tag, m', w'. auto.
Defined.

Lemma Update_panics_iff_witness :
  list_SelectedItem (mlist Plain.noSelection) = None /\
  (exists reason, Update Plain.noSelection (KeyMsg "l") Plain.world0 = Panics reason) /\
  (exists reason, Update Plain.onTimer (ErrMsg None) Plain.world0 = Panics reason).
Proof.
  split; [reflexivity|]. split.
  - apply (proj2 (proj1 (Update_panics_iff (TK := Plain.toolkit) Plain.noSelection
                           (KeyMsg "l") Plain.world0))).
    left. exists "l". split; [reflexivity|]. split; [simpl; auto | reflexivity].
  - apply (proj2 (proj1 (Update_panics_iff (TK := Plain.toolkit) Plain.onTimer
                           (ErrMsg None) Plain.world0))).
    now right.
Defined.

Lemma Update_starts_known_operations_witness :
  exists m' c w',
    Update Plain.onTimer (KeyMsg " ") Plain.world0 = Returns (m', c) w' /\
    (runsOf c = [] \/
     exists k it tag,
       KeyMsg (X := unit) " " = KeyMsg k /\ In k operationKeys /\
       list_SelectedItem (mlist Plain.onTimer) = Some it /\
       runsOf c = [(next_ctx Plain.world0, tag, title it)] /\
       isKnownTag tag = true /\
       cancelFunc m' = Some (next_ctx Plain.world0)).
Proof.
  do 3 eexists. split; [vm_compute; reflexivity|].
  eapply (Update_starts_known_operations (TK := Plain.toolkit) Plain.onTimer).
  vm_compute. reflexivity.
Defined.

Lemma failed_command_keeps_previous_output_witness :
  commandLine Plain.bareHost "start" timerName = Some (startPath timerName) /\
  cmd_Run Plain.bareHost 4 (startPath timerName) =
    (Some "executable file not found in $PATH", "") /\
  exists m' c w',
    Update Plain.busy (runCommand Plain.bareHost 4 "start" timerName) Plain.world5 =
      Returns (m', c) w' /\
    status m' = "Error: executable file not found in $PATH" /\
    lastOutput m' = lastOutput Plain.busy.
Proof.
  split; [reflexivity|]. split; [reflexivity|].
  destruct (failed_command_keeps_previous_output (TK := Plain.toolkit)
              Plain.bareHost Plain.busy Plain.world5 4 "start" timerName
              "executable file not found in $PATH" "" (startPath timerName)
              eq_refl eq_refl)
    as (m' & c & w' & Hu & Hs & _ & _ & Ho & _).
  exists m', c, w'. auto.
Defined.

Lemma unknown_tag_runs_nothing_witness :
  isKnownTag "restart" = false /\
  runCommand (TK := Plain.toolkit) (Plain.host "") 0 "restart" timerName =
    ErrMsg (Some "unknown action").
Proof.
  split; [reflexivity|].
  exact (proj2 (unknown_tag_runs_nothing (TK := Plain.toolkit)
                  (Plain.host "") 0 "restart" timerName) eq_refl (Plain.host "")).
Defined.

Lemma probe_only_for_toggle_witness :
  "logs" <> "toggle" /\
  commandLine (Plain.host "enabled") "logs" serviceName =
    commandLine Plain.bareHost "logs" serviceName.
Proof.
  assert (Hne : "logs" <> "toggle") by discriminate.
  split; [exact Hne|].
  exact (proj1 (probe_only_for_toggle
                  (Plain.host "enabled") Plain.bareHost "logs" serviceName Hne)).
Defined.

Lemma toggle_blank_probe_enables_witness :
  Forall (fun b => asciiSpace b = true)
         (bytes_of (cmd_Output Plain.bareHost (probeLine timerName))) /\
  commandLine Plain.bareHost "toggle" timerName = Some (enablePath timerName).
Proof.
  assert (H : Forall (fun b => asciiSpace b = true)
                     (bytes_of (cmd_Output Plain.bareHost (probeLine timerName))))
    by constructor.
  split; [exact H|].
  exact (toggle_blank_probe_enables Plain.bareHost timerName H).
Defined.

Lemma space_toggles_exactly_timer_titles_witness :
  list_SelectedItem (mlist Plain.onTimer) = Some Plain.timerItem /\
  exists tag m' w',
    Update Plain.onTimer (KeyMsg " ") Plain.world0 =
      Returns (m', CmdBatch [CmdFirstTick; CmdRun 0 tag timerName]) w' /\
    (tag = "toggle" <-> exists lead, timerName = lead ++ ".timer").
Proof.
  split; [reflexivity|].
  destruct (space_toggles_exactly_timer_titles (TK := Plain.toolkit)
              Plain.onTimer Plain.world0 Plain.timerItem eq_refl)
    as (tag & m' & w' & Hu & _ & Hiff).
  exists tag, m', w'. auto.
Defined.


Lemma run_keeps_contexts_allocated_witness :
  let msgs : list (Msg unit) :=
    [KeyMsg "enter"; ErrMsg (Some "exit status 3"); KeyMsg "l"; TickMsg] in
  allocated Plain.busy Plain.world5 = true /\
  exists m' w',
    run Plain.busy msgs Plain.world5 = Returns m' w' /\
    allocated m' w' = true /\
    (next_ctx Plain.world5 <= next_ctx w')%nat.
Proof.
  intros msgs. split; [reflexivity|].
  destruct (run (TK := Plain.toolkit) Plain.busy msgs Plain.world5)
    as [m' w'|reason] eqn:Hrun; [|vm_compute in Hrun; discriminate Hrun].
  destruct (run_keeps_contexts_allocated (TK := Plain.toolkit) msgs Plain.busy m'
              Plain.world5 w' Hrun eq_refl) as (Ha & Hn & _).
  exists m', w'. auto.
Defined.

Lemma run_never_releases_witness :
  let msgs : list (Msg unit) := [OutputMsg "start" "ok"; KeyMsg "down"] in
  cancelFunc Plain.busy <> None /\ err Plain.busy <> None /\
  exists m' w',
    run Plain.busy msgs Plain.world5 = Returns m' w' /\
    cancelFunc m' <> None /\ err m' <> None.
Proof.
  intros msgs.
  assert (Hc : cancelFunc Plain.busy <> None) by discriminate.
  assert (He : err Plain.busy <> None) by discriminate.
  split; [exact Hc|]. split; [exact He|].
  destruct (run (TK := Plain.toolkit) Plain.busy msgs Plain.world5)
    as [m' w'|reason] eqn:Hrun; [|vm_compute in Hrun; discriminate Hrun].
  destruct (run_never_releases (TK := Plain.toolkit) msgs Plain.busy m'
              Plain.world5 w' Hrun) as (Hc' & He').
  exists m', w'. auto.
Defined.

Lemma run_without_keys_witness :
  let msgs : list (Msg unit) := [TickMsg; ErrMsg (Some "exit status 3"); OtherMsg tt] in
  forallb (fun msg => negb (isKey msg)) msgs = true /\
  forallb (fun msg => negb (isNilError msg)) msgs = true /\
  exists m' w',
    run Plain.onTimer msgs Plain.world0 = Returns m' w' /\
    next_ctx w' = next_ctx Plain.world0 /\
    loading m' = false /\
    lastOutput m' = lastOutput Plain.onTimer.
Proof.
  intros msgs. split; [reflexivity|]. split; [reflexivity|].
  destruct (proj1 (run_without_keys (TK := Plain.toolkit) msgs Plain.onTimer
                     Plain.world0 eq_refl) eq_refl)
    as (m' & w' & Hrun & Hn & _ & Hl & Ho).
  exists m', w'. split; [exact Hrun|]. split; [exact Hn|].
  split; [exact (Hl eq_refl) | exact (Ho eq_refl)].
Defined.

Lemma View_returns_frame_witness :
  slen (lastOutput Plain.busy) < int_max /\
  exists body,
    View Plain.busy =
      Some (list_View (mlist Plain.busy) ++ statusBlock Plain.busy ++ body ++ helpLine).
Proof.
  assert (Hlen : slen (lastOutput Plain.busy) < int_max) by (vm_compute; reflexivity).
  split; [exact Hlen|].
  destruct (View_returns_frame (TK := Plain.toolkit) Plain.busy Hlen) as (body & Hv & _).
  exists body. exact Hv.
Defined.


Lemma main_exit_status_witness :
  lookPath (Plain.host "") "systemctl" = true /\ tea_Start (Plain.host "") = None /\
  exitCode (main (TK := Plain.toolkit) (Plain.host "")) = Some 0.
Proof.
  split; [reflexivity|]. split; [reflexivity|].
  exact (proj2 (proj1 (main_exit_status (TK := Plain.toolkit) (Plain.host "")))
           (conj eq_refl eq_refl)).
Defined.

Lemma logs_dispatch_and_window_witness :
  let out := Join (Plain.numbered 24) nl ++ nl in
  list_SelectedItem (mlist Plain.onService) = Some Plain.serviceItem /\
  cmd_Run Plain.logHost 0 (logsPath serviceName) = (None, out) /\
  out <> "" /\
  slen out < int_max /\
  performed (TK := Plain.toolkit) Plain.logHost
    (CmdBatch [CmdFirstTick; CmdRun 0 "logs" serviceName]) =
    [TickMsg; OutputMsg "logs" out] /\
  exists m' w',
    run Plain.onService [KeyMsg "l"; runCommand Plain.logHost 0 "logs" serviceName]
        Plain.world0 = Returns m' w' /\
    View m' =
      Some (list_View (mlist m') ++ statusBlock m' ++
            (nl ++ nl ++
             Join ["F"; "G"; "H"; "I"; "J"; "K"; "L"; "M"; "N"; "O"; "P"; "Q"; "R";
                   "S"; "T"; "U"; "V"; "W"; "X"; ""] nl) ++
            helpLine).
Proof.
  intros out.
  assert (Hne : out <> "") by (apply String.eqb_neq; vm_compute; reflexivity).
  assert (Hlen : slen out < int_max) by (vm_compute; reflexivity).
  split; [reflexivity|]. split; [reflexivity|]. split; [exact Hne|].
  split; [exact Hlen|].
  split.
  - exact (proj2 (proj2 (proj1 (logs_dispatch_and_window (TK := Plain.toolkit))
                           Plain.onService Plain.world0 Plain.serviceItem eq_refl))
             Plain.logHost).
  - destruct (proj2 (proj2 (logs_dispatch_and_window (TK := Plain.toolkit)))
                Plain.logHost Plain.onService Plain.world0 Plain.serviceItem out
                eq_refl eq_refl Hne Hlen)
      as (m' & w' & shown & Hrun & _ & Hshown & _ & Hview).
    exists m', w'. split; [exact Hrun|].
    rewrite Hview, Hshown. reflexivity.
Defined.

(** C7 (as stated) fails for key presses that belong to the list's filter
    and paging: the letter r typed into the filter, or l, the list's key for
    the next page, is taken by [Update] as an operation key.  With the timer
    selected and nothing loading, it sets the loading flag and replaces the
    status line, and the list is left as it was. *)
Lemma filter_key_press_starts_operation :
  loading Plain.onTimer = false /\
  status Plain.onTimer = "Ready" /\
  (exists m' c w',
     Update Plain.onTimer (KeyMsg "r") Plain.world0 = Returns (m', c) w' /\
     loading m' = true /\
     status m' = "start nightly-onedrive-backup.timer" /\
     mlist m' = mlist Plain.onTimer /\
     ~ (loading m' = loading Plain.onTimer /\ status m' = status Plain.onTimer)) /\
  (exists m' c w',
     Update Plain.onTimer (KeyMsg "l") Plain.world0 = Returns (m', c) w' /\
     loading m' = true /\
     status m' = "logs nightly-onedrive-backup.timer" /\
     mlist m' = mlist Plain.onTimer /\
     ~ (loading m' = loading Plain.onTimer /\ status m' = status Plain.onTimer)).
Proof.
  split; [reflexivity|]. split; [reflexivity|].
  split; do 3 eexists; (split; [vm_compute; reflexivity|]);
    (split; [reflexivity|]); (split; [reflexivity|]); (split; [reflexivity|]);
    intros [H _]; discriminate H.
Qed.

Lemma navigation_keeps_loading_status_witness :
  let m := afterTwo Plain.onTimer Plain.world0 "start" timerName in
  isActionKey "down" = false /\
  exists m' c,
    Update m (KeyMsg "down") Plain.world0 = Returns (m', c) Plain.world0 /\
    loading m' = loading m /\
    status m' = status m /\
    mlist m' = fst (list_Update (mlist m) (KeyMsg "down")).
Proof.
  intros m. split; [reflexivity|].
  exact (proj1 (navigation_keeps_loading_status (TK := Plain.toolkit) m "down"
                  Plain.world0) eq_refl).
Defined.
